(** * DXF block extraction and rule-based classification

    A shallow embedding of the two core subsystems of the DXF parser:

    - [src/ai/rule_based_classifier.py] with [src/ai/cache_manager.py]
      (keyword and geometry scoring, rule scan, classification cache);
    - [src/core/geometry_processor.py] and [src/core/block_extractor.py]
      (shoelace area, placement transform, block geometry resolver with its
      memo table, recursive INSERT traversal bounded by [max_depth]).

    Numbers.  Python [float] is IEEE 754 binary64, which is what Rocq's
    primitive [float] is: [*], [+], [-], [/], [abs], [<], [<=] and [==]
    below are the operations the interpreter performs, NaN and signed zeros
    included.  Python [int] is [Z].

    State.  [RuleBasedClassifier.classify] returns the classification and
    the classifier it leaves (statistics, cache); the extractor's methods
    run in a small monad over the geometry memo table, in which
    [self.doc.blocks[name]] may raise [KeyError] and the call of
    [transform_vertices] raises the [ValueError] of [math.cos] for an
    infinite rotation angle.

    Outside the repository.  The regular expression engine ([re]), the
    ['.0%'] formatter, the clock ([datetime.now().isoformat()]) and the C
    library's [cos], [sin] and the degree conversion are parameters; the
    drawing ([ezdxf]) is a record of what the extractor reads from it.
    Log messages are left out. *)

From Stdlib Require Import ZArith List Bool Lia Floats Ascii String.
From Stdlib Require Uint63.
From stdpp Require Import base option list gmap strings pretty.
From Equations Require Import Equations.
Import ListNotations.

#[local] Set Warnings "-inexact-float".
#[local] Open Scope float_scope.

(** Python's [a > b] on floats; false as soon as one side is NaN. *)
Definition gtb (x y : float) : bool := y <? x.
Infix ">?" := gtb (at level 70, no associativity) : float_scope.

(** Truth value of a Python float ([bool(x)], i.e. [x != 0.0]): both zeros
    are false, NaN is true. *)
Definition float_truthy (x : float) : bool := negb (x =? 0.0).

(** Truth value of a Python int. *)
Definition int_truthy (n : Z) : bool := negb (n =? 0)%Z.

(** [str.split(sep)] for a one-character separator: always at least one
    part, empty parts kept. *)
Fixpoint split (sep : Ascii.ascii) (s : string) : list string :=
  match s with
  | EmptyString => [EmptyString]
  | String c rest =>
      if Ascii.eqb c sep then EmptyString :: split sep rest
      else match split sep rest with
           | [] => [String c EmptyString]
           | part :: parts => String c part :: parts
           end
  end.

(** ** [src/models/extracted_entity.py] *)

Record Classification := mkClassification {
  category : string;
  type : string;
  confidence : float;
  reasoning : string;
  method : string
}.

(** ** [src/ai/cache_manager.py]

    The dictionary [CacheManager.cache]; loading and saving the JSON file
    behind it is the persistence collaborator's business.  An entry is the
    dictionary [set] builds: the four classification fields and
    ['cached_at']. *)
Module cache_manager.

Record CacheEntry := mkCacheEntry {
  ce_category : string;
  ce_type : string;
  ce_confidence : float;
  ce_reasoning : string;
  cached_at : string
}.

Record CacheManager := mkCacheManager {
  cache_file : string;
  cache : gmap string CacheEntry
}.

Definition get (self : CacheManager) (block_name : string) : option CacheEntry :=
  cache self !! block_name.

(** [now] is the value of [datetime.now().isoformat()] at the call. *)
Definition set (self : CacheManager) (block_name : string)
    (c_category c_type : string) (c_confidence : float) (c_reasoning : string)
    (now : string) : CacheManager :=
  {| cache_file := cache_file self;
     cache := <[block_name :=
                 {| ce_category := c_category; ce_type := c_type;
                    ce_confidence := c_confidence; ce_reasoning := c_reasoning;
                    cached_at := now |}]> (cache self) |}.

Definition clear (self : CacheManager) : CacheManager :=
  {| cache_file := cache_file self; cache := ∅ |}.

End cache_manager.

(** ** [src/ai/rule_based_classifier.py] *)
Module rule_based_classifier.

(** A rule dictionary; ['area_range'] and ['vertex_range'] are optional
    keys.  Range bounds written as Python ints in the table are the binary64
    values they denote (all of the table's are exact). *)
Record Rule := mkRule {
  r_category : string;
  r_type : string;
  r_confidence : float;
  keywords : list string;
  area_range : option (float * float);
  vertex_range : option (Z * Z)
}.

(** The context dictionary: [context.get('area')] and
    [context.get('vertex_count')]; [None] for a missing key. *)
Record Context := mkContext {
  area : option float;
  vertex_count : option Z
}.

Definition empty_context : Context := {| area := None; vertex_count := None |}.

Record Stats := mkStats {
  total_requests : Z;
  cache_hits : Z;
  rule_matches : Z;
  geometry_matches : Z;
  unclassified : Z
}.

Record RuleBasedClassifier := mkRuleBasedClassifier {
  enable_cache : bool;
  cache : option cache_manager.CacheManager;
  stats : Stats;
  rules : list Rule
}.

Definition init_stats : Stats :=
  {| total_requests := 0; cache_hits := 0; rule_matches := 0;
     geometry_matches := 0; unclassified := 0 |}.

(** [_build_rules]: the rule table, in its order. *)
Definition _build_rules : list Rule :=
  [
    {| r_category := "circulation"; r_type := "exit"; r_confidence := 0.95;
       keywords := ["FSD"; "FSD-\d+"; "FIRE.?SAFETY"; "소방"; "방화"; "비상"];
       area_range := Some (1, 100000000);
       vertex_range := None |};
    {| r_category := "circulation"; r_type := "stairs"; r_confidence := 0.98;
       keywords := ["계단"; "STAIR"; "STEP"; "STA"; "core.*계단"; "층계"; "B[0-9]+F계단"; "STA_"];
       area_range := Some (5, 100000000);
       vertex_range := None |};
    {| r_category := "parking"; r_type := "disabled"; r_confidence := 0.95;
       keywords := ["장애인"; "DISABLED"; "HANDICAP"; "HANDICAPPED"; "배리어프리"; "BARRIER.?FREE"; "ACCESSIBLE"; "장애"; "DISABLE"];
       area_range := Some (15000000, 20000000);
       vertex_range := None |};
    {| r_category := "parking"; r_type := "electric"; r_confidence := 0.95;
       keywords := ["전기차"; "ELECTRIC"; "EV"; "E.?V"; "환경친화"; "ECO"; "CHARGE"; "충전"; "PARK.?EC"; "EC.?PARK"];
       area_range := Some (10000000, 15000000);
       vertex_range := None |};
    {| r_category := "parking"; r_type := "women"; r_confidence := 0.95;
       keywords := ["여성"; "WOMEN"; "WOMAN"; "FEMALE"; "가족"; "FAMILY"; "배려"; "교통약자"; "PRIORITY"];
       area_range := Some (10000000, 15000000);
       vertex_range := None |};
    {| r_category := "parking"; r_type := "compact"; r_confidence := 0.95;
       keywords := ["경차"; "COMPACT"; "SMALL"; "MINI"; "소형"; "LIGHT"];
       area_range := Some (7000000, 10000000);
       vertex_range := None |};
    {| r_category := "parking"; r_type := "large"; r_confidence := 0.9;
       keywords := ["확장"; "LARGE"; "EXTENDED"; "EXPAND"; "SUV"; "대형"; "BIG"];
       area_range := Some (13000000, 18000000);
       vertex_range := None |};
    {| r_category := "parking"; r_type := "basic"; r_confidence := 0.9;
       keywords := ["일반"; "NORMAL"; "STANDARD"; "REGULAR"; "BASIC"; "STD"; "PARK"; "주차"; "PARKING"; "CAR.?SPACE"];
       area_range := Some (10000000, 15000000);
       vertex_range := None |};
    {| r_category := "structure"; r_type := "column"; r_confidence := 0.95;
       keywords := ["기둥"; "COLUMN"; "COL"; "PILLAR"; "POST"; "C\d+"; "^C-"; "PIER"; "\d+x\d+"; "^\d{3,4}$"];
       area_range := Some (100000, 1000000000);
       vertex_range := Some (4, 100)%Z |};
    {| r_category := "structure"; r_type := "wall"; r_confidence := 0.95;
       keywords := ["벽"; "WALL"; "PARTITION"; "BARRIER"; "외벽"; "EXTERIOR"; "내벽"; "INTERIOR"; "FENCE"; "칸막이"];
       area_range := Some (0.1, 100);
       vertex_range := None |};
    {| r_category := "structure"; r_type := "beam"; r_confidence := 0.9;
       keywords := ["보"; "BEAM"; "GIRDER"; "JOIST"; "B\d+"; "^B-"];
       area_range := Some (0.5, 10);
       vertex_range := None |};
    {| r_category := "circulation"; r_type := "entrance"; r_confidence := 0.95;
       keywords := ["출입구"; "ENTRANCE"; "ENTRY"; "ACCESS"; "GATE"; "입구"; "게이트"; "IN"; "INGRESS"; "자동문"; "AUTO.?DOOR"; "접이문"; "FOLDING"; "슬라이딩"; "SLIDING"];
       area_range := Some (10000, 50000000);
       vertex_range := None |};
    {| r_category := "circulation"; r_type := "exit"; r_confidence := 0.95;
       keywords := ["출구"; "EXIT"; "EGRESS"; "OUT"; "비상구"; "EMERGENCY"; "ESCAPE"; "SSD"; "SFD"];
       area_range := Some (10000, 50000000);
       vertex_range := None |};
    {| r_category := "circulation"; r_type := "ramp"; r_confidence := 0.95;
       keywords := ["경사로"; "RAMP"; "SLOPE"; "INCLINE"; "GRADIENT"; "램프"];
       area_range := Some (10, 100);
       vertex_range := None |};
    {| r_category := "circulation"; r_type := "stairs"; r_confidence := 0.95;
       keywords := ["계단"; "STAIRS"; "STAIR"; "STEP"; "STAIRWAY"; "STAIRCASE"];
       area_range := Some (5, 30);
       vertex_range := None |};
    {| r_category := "circulation"; r_type := "elevator"; r_confidence := 0.95;
       keywords := ["엘리베이터"; "ELEVATOR"; "LIFT"; "EV"; "승강기"; "HOIST"; "E.?L"];
       area_range := Some (3, 10);
       vertex_range := None |};
    {| r_category := "facility"; r_type := "restroom"; r_confidence := 0.95;
       keywords := ["화장실"; "RESTROOM"; "TOILET"; "WC"; "변기"; "세면대"; "SINK"; "소변기"; "URIN"; "샤워"; "SHOWER"; "욕실"; "WASH"; "BASIN"; "LAVATORY"];
       area_range := Some (1000, 50000000);
       vertex_range := None |};
    {| r_category := "facility"; r_type := "storage"; r_confidence := 0.9;
       keywords := ["신발장"; "LOCKER"; "CABINET"; "SHOE"; "수납"; "STORAGE"; "보관"; "창고"];
       area_range := Some (100000, 20000000);
       vertex_range := None |};
    {| r_category := "facility"; r_type := "mechanical"; r_confidence := 0.9;
       keywords := ["기계실"; "MECHANICAL"; "MACHINE"; "MECH"; "설비실"; "EQUIPMENT"; "UTILITY"; "M/R"; "MR"; "제연"];
       area_range := Some (1000000, 50000000);
       vertex_range := None |};
    {| r_category := "facility"; r_type := "electrical"; r_confidence := 0.9;
       keywords := ["전기실"; "ELECTRICAL"; "ELECTRIC"; "ELEC"; "POWER"; "E/R"; "ER"; "배전"];
       area_range := Some (1000000, 50000000);
       vertex_range := None |};
    {| r_category := "facility"; r_type := "recreation"; r_confidence := 0.85;
       keywords := ["골프"; "GOLF"; "운동"; "GYM"; "FITNESS"; "휴게"; "레저"; "RECREATION"];
       area_range := Some (5000000, 100000000);
       vertex_range := None |};
    {| r_category := "facility"; r_type := "room"; r_confidence := 0.7;
       keywords := ["실"; "ROOM"; "SPACE"; "AREA"; "ZONE"; "RM"; "B\d{3}"; "B-\d{3}"];
       area_range := Some (100000, 100000000);
       vertex_range := None |}
  ].

(** [__init__]: [loaded] is the cache manager as [CacheManager(cache_file)]
    builds it from the cache file. *)
Definition init (enable_cache : bool) (loaded : cache_manager.CacheManager)
    : RuleBasedClassifier :=
  {| enable_cache := enable_cache;
     cache := if enable_cache then Some loaded else None;
     stats := init_stats;
     rules := _build_rules |}.

Section Classifier.

(** [re.compile(keyword, re.IGNORECASE).search(text)] as a truth value. *)
Variable re_search : string -> string -> bool.

(** [f"{x:.0%}"]. *)
Variable format_percent : float -> string.

Definition _match_keywords (block_name : string) (keywords : list string) : float :=
  let block_parts := split "$"%char block_name in
  (fix loop (keywords : list string) : float :=
     match keywords with
     | [] => 0.0
     | keyword :: keywords' =>
         if re_search keyword block_name then 1.0
         else if existsb (re_search keyword) block_parts then 1.0
         else loop keywords'
     end) keywords.

Definition _match_geometry (context : Context) (rule : Rule) : float :=
  let score := 1.0 in
  let score :=
    match area_range rule, area context with
    | Some (min_area, max_area), Some area =>
        if float_truthy area then
          if (min_area <=? area) && (area <=? max_area) then score * 1.0
          else if (area <? min_area * 0.5) || (area >? max_area * 2) then score * 0.3
          else score * 0.7
        else score
    | _, _ => score
    end in
  let score :=
    match vertex_range rule, vertex_count context with
    | Some (min_v, max_v), Some vertex_count =>
        if int_truthy vertex_count then
          if ((min_v <=? vertex_count) && (vertex_count <=? max_v))%Z then score * 1.0
          else score * 0.5
        else score
    | _, _ => score
    end in
  score.

Definition final_confidence (block_name : string) (context : Context) (rule : Rule) : float :=
  r_confidence rule * _match_keywords block_name (keywords rule)
  * _match_geometry context rule.

(** The [Classification] the scan builds for a rule that takes the lead. *)
Definition rule_classification (block_name : string) (context : Context) (rule : Rule)
    : Classification :=
  let match_score := _match_keywords block_name (keywords rule) in
  let geo_score := _match_geometry context rule in
  let reasoning := String.append "키워드 매칭: " (format_percent match_score) in
  let reasoning :=
    if geo_score <? 1.0
    then String.append reasoning (String.append ", 기하학 검증: " (format_percent geo_score))
    else reasoning in
  {| category := r_category rule;
     type := r_type rule;
     confidence := final_confidence block_name context rule;
     reasoning := reasoning;
     method := "rule-based" |}.

(** One iteration of [for rule in self.rules] over the pair
    [(best_match, best_confidence)]. *)
Definition scan_step (block_name : string) (context : Context)
    (st : option Classification * float) (rule : Rule) : option Classification * float :=
  let match_score := _match_keywords block_name (keywords rule) in
  if match_score >? 0 then
    if final_confidence block_name context rule >? snd st then
      (Some (rule_classification block_name context rule),
       final_confidence block_name context rule)
    else st
  else st.

Definition scan (block_name : string) (context : Context) (rules : list Rule)
    : option Classification * float :=
  fold_left (scan_step block_name context) rules (None, 0.0).

Definition unclassified_result : Classification :=
  {| category := "other";
     type := "unclassified";
     confidence := 0.3;
     reasoning := "규칙 매칭 실패";
     method := "rule-based" |}.

Definition bump_rule_matches (s : Stats) : Stats :=
  {| total_requests := total_requests s; cache_hits := cache_hits s;
     rule_matches := rule_matches s + 1; geometry_matches := geometry_matches s;
     unclassified := unclassified s |}.

Definition bump_unclassified (s : Stats) : Stats :=
  {| total_requests := total_requests s; cache_hits := cache_hits s;
     rule_matches := rule_matches s; geometry_matches := geometry_matches s;
     unclassified := unclassified s + 1 |}.

Definition bump_total_requests (s : Stats) : Stats :=
  {| total_requests := total_requests s + 1; cache_hits := cache_hits s;
     rule_matches := rule_matches s; geometry_matches := geometry_matches s;
     unclassified := unclassified s |}.

Definition bump_cache_hits (s : Stats) : Stats :=
  {| total_requests := total_requests s; cache_hits := cache_hits s + 1;
     rule_matches := rule_matches s; geometry_matches := geometry_matches s;
     unclassified := unclassified s |}.

Definition with_stats (self : RuleBasedClassifier) (s : Stats) : RuleBasedClassifier :=
  {| enable_cache := enable_cache self; cache := cache self;
     stats := s; rules := rules self |}.

Definition with_cache (self : RuleBasedClassifier) (c : cache_manager.CacheManager)
    : RuleBasedClassifier :=
  {| enable_cache := enable_cache self; cache := Some c;
     stats := stats self; rules := rules self |}.

Definition _classify_by_rules (self : RuleBasedClassifier) (block_name : string)
    (context : Context) : Classification * RuleBasedClassifier :=
  let '(best_match, best_confidence) := scan block_name context (rules self) in
  match best_match with
  | Some best =>
      if best_confidence >? 0.5
      then (best, with_stats self (bump_rule_matches (stats self)))
      else (unclassified_result, with_stats self (bump_unclassified (stats self)))
  | None => (unclassified_result, with_stats self (bump_unclassified (stats self)))
  end.

(** [self.enable_cache and self.cache]: the cache manager in use, if any
    (a [CacheManager] object is always true). *)
Definition active_cache (self : RuleBasedClassifier) : option cache_manager.CacheManager :=
  if enable_cache self then cache self else None.

(** The cache probe of [classify]: the entry [classify] would return. *)
Definition cache_probe (self : RuleBasedClassifier) (block_name : string)
    : option cache_manager.CacheEntry :=
  match active_cache self with
  | Some cm => cache_manager.get cm block_name
  | None => None
  end.

Definition classify (self : RuleBasedClassifier) (block_name : string)
    (context : option Context) (now : string) : Classification * RuleBasedClassifier :=
  let self := with_stats self (bump_total_requests (stats self)) in
  match cache_probe self block_name with
  | Some cached =>
      ({| category := cache_manager.ce_category cached;
          type := cache_manager.ce_type cached;
          confidence := cache_manager.ce_confidence cached;
          reasoning := cache_manager.ce_reasoning cached;
          method := "cached" |},
       with_stats self (bump_cache_hits (stats self)))
  | None =>
      let '(result, self) :=
        _classify_by_rules self block_name (default empty_context context) in
      let self :=
        match active_cache self with
        | Some cm =>
            with_cache self
              (cache_manager.set cm block_name (category result) (type result)
                 (confidence result) (reasoning result) now)
        | None => self
        end in
      (result, self)
  end.

End Classifier.

End rule_based_classifier.

(** ** [src/core/geometry_processor.py] *)
Module geometry_processor.

Definition Vertex : Type := float * float.

(** [float(i)] for a small non-negative int. *)
Definition float_of_nat (i : nat) : float :=
  PrimFloat.of_uint63 (Uint63.of_Z (Z.of_nat i)).

(** [math.pi]. *)
Definition math_pi : float := 0x1.921fb54442d18p+1.

(** Shoelace formula; [vertices[k]] is [nth k vertices], every index the
    loop uses being below [len(vertices)]. *)
Definition calculate_area (vertices : list Vertex) : float :=
  if (length vertices <? 3)%nat then 0.0
  else
    let n := length vertices in
    let area :=
      fold_left
        (fun area i =>
           let j := ((i + 1) mod n)%nat in
           let vi := nth i vertices (0.0, 0.0) in
           let vj := nth j vertices (0.0, 0.0) in
           let area := area + fst vi * snd vj in
           area - fst vj * snd vi)
        (seq 0 n) 0.0 in
    abs area / 2.0.

Section Libm.

(** [math.radians], and the C functions behind [math.cos] and [math.sin]. *)
Variables radians cos sin : float -> float.

(** [math.cos(x)] and [math.sin(x)] raise ValueError, a math domain error,
    for an infinite [x], the invalid operation of the C functions; for any
    other [x], NaN included, they return the C function's value. *)
Definition math_domain_error (x : float) : bool := is_infinity x.

(** The list [transform_vertices] returns; [cos_r] and [sin_r] are the
    values [math.cos] and [math.sin] return. *)

Definition transform_vertices (vertices : list Vertex) (insert_point : float * float)
    (rotation : float) (scale_x scale_y : float) : list Vertex :=
  match vertices with
  | [] => []
  | _ =>
      let rad := radians rotation in
      let cos_r := cos rad in
      let sin_r := sin rad in
      fold_left
        (fun transformed '(x, y) =>
           (* 1. scale *)
           let x := x * scale_x in
           let y := y * scale_y in
           (* 2. rotate *)
           let x_rot := x * cos_r - y * sin_r in
           let y_rot := x * sin_r + y * cos_r in
           (* 3. translate *)
           let x_final := x_rot + fst insert_point in
           let y_final := y_rot + snd insert_point in
           transformed ++ [(x_final, y_final)])
        vertices []
  end.

(** [transform_vertices] raises the ValueError of [math.cos(rad)], before
    any vertex is transformed; an empty list returns before the call. *)
Definition transform_vertices_raises (vertices : list Vertex) (rotation : float) : bool :=
  match vertices with
  | [] => false
  | _ => math_domain_error (radians rotation)
  end.

(** The angles are finite: [math.cos] and [math.sin] return. *)
Definition extract_circle_vertices (center : float * float) (radius : float)
    (segments : nat) : list Vertex :=
  fold_left
    (fun vertices i =>
       let angle := 2 * math_pi * float_of_nat i / float_of_nat segments in
       let x := fst center + radius * cos angle in
       let y := snd center + radius * sin angle in
       vertices ++ [(x, y)])
    (seq 0 segments) [].

End Libm.

End geometry_processor.

(** ** [src/core/block_extractor.py]

    The drawing is the ezdxf collaborator: a modelspace, and block
    definitions looked up by name.  Entities are discriminated by
    [dxftype()]; each kind carries what the extractor reads from it. *)
Module block_extractor.

Import geometry_processor.

(** The fields read from an INSERT: [dxf.name], [dxf.insert.x/.y],
    [dxf.rotation] and the optional [dxf.xscale], [dxf.yscale]. *)
Record Insert := mkInsert {
  name : string;
  insert : float * float;
  rotation : float;
  xscale : option float;
  yscale : option float
}.

Inductive Entity :=
| INSERT (i : Insert)
| LWPOLYLINE (points : list Vertex)       (* [get_points('xy')] *)
| POLYLINE (vertices : list Vertex)       (* the vertices' [dxf.location] *)
| CIRCLE (center : float * float) (radius : float)
| OTHER (dxftype : string).

Record Block := mkBlock {
  block_name_of : string;                 (* [block.name] *)
  block_entities : list Entity            (* [for entity in block] *)
}.

Record Drawing := mkDrawing {
  modelspace : list Entity;
  blocks : gmap string Block
}.

Record ExtractedEntity := mkExtractedEntity {
  block_name : string;
  geometry_type : string;
  vertices : list Vertex;
  area : option float;
  insert_point : float * float;
  entity_rotation : float;
  classification : option Classification
}.

(** [self.block_geometry_cache]. *)
Abbreviation GeometryCache := (gmap string (list Vertex)).

Inductive Exn :=
| KeyError (key : string)
| ValueError (message : string).

(** Computations of the extractor: they read and update the geometry
    cache, and may raise.  Nothing catches an exception of the extractor:
    it ends the run, and the cache is not read after it. *)
Definition M (A : Type) : Type := GeometryCache -> Exn + (A * GeometryCache).

Definition ret {A} (a : A) : M A := fun cache => inr (a, cache).

Definition raise {A} (e : Exn) : M A := fun _ => inl e.

Definition bind {A B} (m : M A) (f : A -> M B) : M B :=
  fun cache =>
    match m cache with
    | inl e => inl e
    | inr (a, cache') => f a cache'
    end.

Notation "'let*' x ':=' m 'in' k" := (bind m (fun x => k))
  (at level 10, x name, m at level 100, k at level 200).

(** [for x in xs: body], the loop body updating the loop's variables [s]. *)
Fixpoint for_each {A S} (body : S -> A -> M S) (xs : list A) (s : S) : M S :=
  match xs with
  | [] => ret s
  | x :: xs' =>
      let* s' := body s x in
      for_each body xs' s'
  end.

(** The body both traversal loops share: an INSERT is extracted by
    [extract] and its entities appended, any other entity is passed over. *)
Definition extend_with_insert (extract : Insert -> M (list ExtractedEntity))
    (entities : list ExtractedEntity) (entity : Entity) : M (list ExtractedEntity) :=
  match entity with
  | INSERT insert_entity =>
      let* extracted := extract insert_entity in
      ret (entities ++ extracted)
  | _ => ret entities
  end.

Section Extractor.

Variables radians cos sin : float -> float.

(** [ezdxf.math.Matrix44]; only ever passed along. *)
Variable Matrix44 : Type.

(** [self.doc]. *)
Variable doc : Drawing.

(** [self.doc.blocks[block_name]]. *)
Definition blocks_getitem (block_name : string) : M Block :=
  match blocks doc !! block_name with
  | Some block => ret block
  | None => raise (KeyError block_name)
  end.

(** [block_name in self.doc.blocks]. *)
Definition blocks_contains (block_name : string) : bool :=
  match blocks doc !! block_name with
  | Some _ => true
  | None => false
  end.

(** The vertex list the scan reads off one entity of a block. *)
Definition entity_vertices (entity : Entity) : option (list Vertex) :=
  match entity with
  | LWPOLYLINE points => Some points
  | POLYLINE vertices => Some vertices
  | CIRCLE center radius => Some (extract_circle_vertices cos sin center radius 32)
  | _ => None
  end.

(** One iteration of [for entity in block] over
    [(largest_polyline, largest_area)]. *)
Definition scan_entity (st : option (list Vertex) * float) (entity : Entity)
    : option (list Vertex) * float :=
  match entity_vertices entity with
  | Some ((_ :: _) as vertices) =>
      if (3 <=? length vertices)%nat then
        let area := calculate_area vertices in
        if area >? snd st then (Some vertices, area) else st
      else st
  | _ => st
  end.

(** The scan of a block's primitives. *)
Definition scan_block (block : Block) : option (list Vertex) :=
  fst (fold_left scan_entity (block_entities block) (None, 0.0)).

Definition _extract_block_geometry (block : Block) : M (option (list Vertex)) :=
  fun cache =>
    let block_name := block_name_of block in
    match cache !! block_name with
    | Some cached => inr (Some cached, cache)
    | None =>
        let largest_polyline := scan_block block in
        match largest_polyline with
        | Some ((_ :: _) as polyline) =>
            inr (largest_polyline, <[block_name := polyline]> cache)
        | _ => inr (largest_polyline, cache)
        end
    end.

(** The body of [if geometry:] in [_extract_from_insert]: the entity an
    INSERT contributes for a resolved geometry. *)
Definition placed_entity (insert_entity : Insert) (geometry : list Vertex)
    : ExtractedEntity :=
  let insert_point := insert insert_entity in
  let rotation := rotation insert_entity in
  let scale_x := default 1.0 (xscale insert_entity) in
  let scale_y := default 1.0 (yscale insert_entity) in
  let transformed_vertices :=
    transform_vertices radians cos sin geometry insert_point rotation scale_x scale_y in
  let area := calculate_area transformed_vertices in
  {| block_name := name insert_entity;
     geometry_type := "LWPOLYLINE";
     vertices := transformed_vertices;
     area := Some area;
     insert_point := insert_point;
     entity_rotation := rotation;
     classification := None |}.

Definition own_entities (insert_entity : Insert) (geometry : option (list Vertex))
    : list ExtractedEntity :=
  match geometry with
  | Some ((_ :: _) as geometry) => [placed_entity insert_entity geometry]
  | _ => []
  end.

(** [entities = []] followed by [if geometry: ...]: the call of
    [transform_vertices] raises for an infinite rotation angle, and the
    INSERT's own entity is appended otherwise. *)
Definition place (insert_entity : Insert) (geometry : option (list Vertex))
    : M (list ExtractedEntity) :=
  match geometry with
  | Some ((_ :: _) as placed) =>
      if transform_vertices_raises radians placed (rotation insert_entity)
      then raise (ValueError "math domain error")
      else ret (own_entities insert_entity geometry)
  | _ => ret []
  end.

Equations? _extract_from_insert (insert_entity : Insert) (depth max_depth : Z)
    (parent_transform : option Matrix44) : M (list ExtractedEntity)
    by wf (Z.to_nat (max_depth + 1 - depth)) lt :=
  _extract_from_insert insert_entity depth max_depth parent_transform
    with Z_gt_dec depth max_depth := {
    | left _ => ret []
    | right _ =>
        let block_name := name insert_entity in
        if negb (blocks_contains block_name) then ret []
        else
          let* block := blocks_getitem block_name in
          let* geometry := _extract_block_geometry block in
          let* entities := place insert_entity geometry in
          for_each
            (extend_with_insert
               (fun nested_entity =>
                  _extract_from_insert nested_entity (depth + 1) max_depth None))
            (block_entities block) entities }.
Proof. lia. Qed.

Definition extract_all_blocks (max_depth : Z) : M (list ExtractedEntity) :=
  for_each
    (extend_with_insert
       (fun insert_entity => _extract_from_insert insert_entity 0 max_depth None))
    (modelspace doc) [].

End Extractor.

End block_extractor.

(** ** Specification-side definitions

    The notions the properties below are stated with; none of them is part
    of the program. *)
Module spec.

Import rule_based_classifier.

(** Geometry factors as the specification words them, for a declared range
    and a supplied value. *)
Definition area_factor (declared : option (float * float)) (supplied : option float)
    : float :=
  match declared, supplied with
  | Some (min_area, max_area), Some area =>
      if (min_area <=? area) && (area <=? max_area) then 1.0
      else if (area <? min_area * 0.5) || (area >? max_area * 2) then 0.3
      else 0.7
  | _, _ => 1.0
  end.

Definition vertex_factor (declared : option (Z * Z)) (supplied : option Z) : float :=
  match declared, supplied with
  | Some (min_v, max_v), Some vertex_count =>
      if ((min_v <=? vertex_count) && (vertex_count <=? max_v))%Z then 1.0 else 0.5
  | _, _ => 1.0
  end.

(** The values of a context a Python truth test lets through: a zero counts
    as no value. *)
Definition effective_area (context : Context) : option float :=
  match area context with
  | Some a => if float_truthy a then Some a else None
  | None => None
  end.

Definition effective_vertex_count (context : Context) : option Z :=
  match vertex_count context with
  | Some n => if int_truthy n then Some n else None
  | None => None
  end.

Section Classifier.

Variable re_search : string -> string -> bool.
Variable format_percent : float -> string.

(** A rule takes part in the scan when its keyword score is positive. *)
Definition eligible (block_name : string) (r : Rule) : bool :=
  _match_keywords re_search block_name (keywords r) >? 0.

(** The classification the rules give, without the bookkeeping. *)
Definition decision (rules : list Rule) (block_name : string) (context : Context)
    : Classification :=
  match scan re_search format_percent block_name context rules with
  | (Some best, best_confidence) =>
      if best_confidence >? 0.5 then best else unclassified_result
  | (None, _) => unclassified_result
  end.

(** A sequence of [classify] calls, each with its name, context and clock
    value; the classifier they leave behind. *)
Fixpoint run_calls (calls : list (string * option Context * string))
    (self : RuleBasedClassifier) : RuleBasedClassifier :=
  match calls with
  | [] => self
  | (block_name, context, now) :: calls' =>
      run_calls calls'
        (snd (classify re_search format_percent self block_name context now))
  end.

End Classifier.

(** A search engine for patterns without metacharacters, on text in the
    pattern's case: substring search. *)
Fixpoint find_sub (pattern text : string) : bool :=
  String.prefix pattern text
  || match text with
     | EmptyString => false
     | String _ text' => find_sub pattern text'
     end.

(** A ['.0%'] rendering for the scores of the examples: the nearest integer
    to a hundred times the value, for a finite non-negative value. *)
Definition percent (x : float) : string :=
  let n :=
    match Prim2SF (x * 100 + 0.5) with
    | S754_finite false m e =>
        if (0 <=? e)%Z then (Z.pos m * 2 ^ e)%Z else (Z.pos m / 2 ^ (- e))%Z
    | _ => 0%Z
    end in
  String.append (pretty n) "%".


(** *** Placement transform *)

Import geometry_processor block_extractor.

Definition scale (scale_x scale_y : float) (v : Vertex) : Vertex :=
  (fst v * scale_x, snd v * scale_y).

(** Rotation about the origin, for the cosine and the sine of the angle. *)
Definition rotate (cos_r sin_r : float) (v : Vertex) : Vertex :=
  (fst v * cos_r - snd v * sin_r, fst v * sin_r + snd v * cos_r).

Definition translate (by_point : float * float) (v : Vertex) : Vertex :=
  (fst v + fst by_point, snd v + snd by_point).

(** The three steps applied in a given order, first step first. *)
Definition in_order (steps : list (Vertex -> Vertex)) (v : Vertex) : Vertex :=
  fold_left (fun v step => step v) steps v.

Definition vertex_eqb (v w : Vertex) : bool :=
  (fst v =? fst w) && (snd v =? snd w).

Fixpoint vertices_eqb (vs ws : list Vertex) : bool :=
  match vs, ws with
  | [], [] => true
  | v :: vs', w :: ws' => vertex_eqb v w && vertices_eqb vs' ws'
  | _, _ => false
  end.

(** The square of side 10 centred at the origin. *)
Definition square10 : list Vertex :=
  [(-5, -5); (5, -5); (5, 5); (-5, 5)].

(** [math.cos(math.radians(90))] and [math.sin(math.radians(90))] under a
    correctly rounded C library. *)
Definition cos_quarter_turn : float := 0x1.1a62633145c07p-54.
Definition sin_quarter_turn : float := 1.

(** *** Instance tree *)

Section Tree.

Variable doc : Drawing.

(** [nested_at i d i' d']: walking down from the INSERT [i] taken at depth
    [d], the INSERT [i'] is met at depth [d']. *)
Inductive nested_at : Insert -> Z -> Insert -> Z -> Prop :=
| nested_here (i : Insert) (d : Z) : nested_at i d i d
| nested_below (i : Insert) (d : Z) (b : Block) (c : Insert) (i' : Insert) (d' : Z) :
    blocks doc !! name i = Some b ->
    In (INSERT c) (block_entities b) ->
    nested_at c (d + 1) i' d' ->
    nested_at i d i' d'.

(** The INSERT [i] is met at depth [d] from the modelspace. *)
Definition reached (i : Insert) (d : Z) : Prop :=
  exists top, In (INSERT top) (modelspace doc) /\ nested_at top 0 i d.

End Tree.

(** *** Resolver *)

Section Resolver.

Variables cos sin : float -> float.

(** What resolving a block returns for a given memo table, and the table
    it leaves. *)
Definition resolve_result (block : Block) (cache : GeometryCache)
    : option (list Vertex) :=
  match cache !! block_name_of block with
  | Some cached => Some cached
  | None => scan_block cos sin block
  end.

Definition resolve_cache (block : Block) (cache : GeometryCache) : GeometryCache :=
  match cache !! block_name_of block with
  | Some _ => cache
  | None =>
      match scan_block cos sin block with
      | Some ((_ :: _) as polyline) => <[block_name_of block := polyline]> cache
      | _ => cache
      end
  end.

End Resolver.

(** [placed_below i d m cache e]: the entity [e] is the placement of an
    INSERT met between depth [d] and depth [m] walking down from [i], with
    the geometry the memo table holds for its block. *)
Definition placed_below (radians cos sin : float -> float) (doc : Drawing)
    (i : Insert) (d m : Z) (cache : GeometryCache) (e : ExtractedEntity) : Prop :=
  exists i' d' b g,
    nested_at doc i d i' d' /\ (d <= d' <= m)%Z
    /\ blocks doc !! name i' = Some b
    /\ cache !! block_name_of b = Some g
    /\ e = placed_entity radians cos sin i' g.

(** *** Rotation angles *)

(** The INSERT's rotation angle is one [math.cos] and [math.sin] return
    for: [math.radians] of it is not infinite. *)
Definition finite_rotation (radians : float -> float) (i : Insert) : Prop :=
  math_domain_error (radians (rotation i)) = false.

Definition finite_rotations_in (radians : float -> float) (entities : list Entity)
    : Prop :=
  forall i, In (INSERT i) entities -> finite_rotation radians i.

(** No INSERT of the drawing, in the modelspace or in a block definition,
    has an infinite rotation angle. *)
Definition finite_rotations (radians : float -> float) (doc : Drawing) : Prop :=
  finite_rotations_in radians (modelspace doc)
  /\ forall k b, blocks doc !! k = Some b ->
                 finite_rotations_in radians (block_entities b).

(** Placing the INSERT with the geometry resolved for its block raises. *)
Definition place_raises (radians : float -> float) (i : Insert)
    (geometry : option (list Vertex)) : bool :=
  match geometry with
  | Some placed => transform_vertices_raises radians placed (rotation i)
  | None => false
  end.

(** *** Visiting the nested instances *)

(** The nested instances of a block visited in order: the entities of
    each INSERT follow those of the INSERTs before it, the memo table
    passes from one visit to the next, an exception ends the visit, and
    an entity that is not an INSERT contributes nothing. *)
Fixpoint visit_nested
    (visit : Insert -> GeometryCache -> Exn + (list ExtractedEntity * GeometryCache))
    (entities : list Entity) (cache : GeometryCache)
    : Exn + (list ExtractedEntity * GeometryCache) :=
  match entities with
  | [] => inr ([], cache)
  | INSERT i :: rest =>
      match visit i cache with
      | inl e => inl e
      | inr (found, cache1) =>
          match visit_nested visit rest cache1 with
          | inl e => inl e
          | inr (more, cache2) => inr (found ++ more, cache2)
          end
      end
  | _ :: rest => visit_nested visit rest cache
  end.

(** *** Example drawings *)

(** [math.radians], and the values of a correctly rounded cosine and sine
    at the two angles of the examples, 0 and [radians 90]. *)
Definition radians (x : float) : float := x * (math_pi / 180).
Definition cos_table (x : float) : float := if x =? 0 then 1 else cos_quarter_turn.
Definition sin_table (x : float) : float := if x =? 0 then 0 else sin_quarter_turn.

Definition triangle : list Vertex := [(0, 0); (4, 0); (0, 3)].

Definition at_origin (block : string) : Insert :=
  {| name := block; insert := (0, 0); rotation := 0; xscale := None; yscale := None |}.

Definition chain_name (k : nat) : string := String.append "B" (pretty k).

(** A chain of [n + 1] blocks: block [k] holds a triangle and, below the
    last, an INSERT of block [k + 1]; the modelspace places block 0. *)
Definition chain_block (last k : nat) : Block :=
  {| block_name_of := chain_name k;
     block_entities :=
       LWPOLYLINE triangle
       :: (if (k <? last)%nat then [INSERT (at_origin (chain_name (S k)))] else []) |}.

Definition chain_doc (last : nat) : Drawing :=
  {| modelspace := [INSERT (at_origin (chain_name 0))];
     blocks :=
       fold_right (fun k m => <[chain_name k := chain_block last k]> m) ∅
         (seq 0 (S last)) |}.

(** A block that places itself. *)
Definition self_doc : Drawing :=
  {| modelspace := [INSERT (at_origin "A")];
     blocks :=
       <["A" := {| block_name_of := "A";
                   block_entities := [LWPOLYLINE triangle; INSERT (at_origin "A")] |}]> ∅ |}.


(** *** Example classifiers, rules and placements *)

(** A classifier without cache, and one with an empty cache. *)
Definition without_cache : RuleBasedClassifier :=
  init false {| cache_manager.cache_file := ""; cache_manager.cache := ∅ |}.

Definition with_empty_cache : RuleBasedClassifier :=
  init true {| cache_manager.cache_file := ""; cache_manager.cache := ∅ |}.

Definition parking_lot : string := "지하1층평면도$0$PARK_일반".

Definition lot_context : Context :=
  {| rule_based_classifier.area := Some 12000000; vertex_count := Some 4%Z |}.

(** Two rules of equal base confidence whose keywords both match. *)
Definition rule_first : Rule :=
  {| r_category := "parking"; r_type := "basic"; r_confidence := 0.90;
     keywords := ["PARK"]; area_range := None; vertex_range := None |}.

Definition rule_second : Rule :=
  {| r_category := "parking"; r_type := "large"; r_confidence := 0.90;
     keywords := ["LARGE"; "PARK"]; area_range := None; vertex_range := None |}.

Definition two_rules : RuleBasedClassifier :=
  {| enable_cache := false; cache := None; stats := init_stats;
     rules := [rule_first; rule_second] |}.

(** The ramp rule of the table: area between 10 and 100. *)
Definition ramp_rule : Rule :=
  {| r_category := "circulation"; r_type := "ramp"; r_confidence := 0.95;
     keywords := ["경사로"; "RAMP"; "SLOPE"; "INCLINE"; "GRADIENT"; "램프"];
     area_range := Some (10, 100); vertex_range := None |}.

Definition zero_area : Context :=
  {| rule_based_classifier.area := Some 0.0; vertex_count := None |}.

(** The same block placed elsewhere, turned and stretched. *)
Definition moved (block : string) : Insert :=
  {| name := block; insert := (100, 100); rotation := 90;
     xscale := Some 2; yscale := None |}.

Definition block_with_triangle : Block :=
  {| block_name_of := "B"; block_entities := [LWPOLYLINE triangle] |}.

Definition block_without_polygon : Block :=
  {| block_name_of := "B"; block_entities := [OTHER "LINE"] |}.

Definition missing_block : Insert := at_origin "nowhere".

(** A block without a polygon of its own that places the triangle block. *)
Definition hollow_block : Block :=
  {| block_name_of := "H";
     block_entities := [OTHER "LINE"; INSERT (moved "B")] |}.

Definition hollow_doc : Drawing :=
  {| modelspace := [INSERT (at_origin "H")];
     blocks := <["H" := hollow_block]> (<["B" := block_with_triangle]> ∅) |}.

(** The triangle block placed with an infinite rotation angle. *)
Definition turned_without_end : Insert :=
  {| name := "B"; insert := (0, 0); rotation := infinity;
     xscale := None; yscale := None |}.

Definition endless_doc : Drawing :=
  {| modelspace := [INSERT turned_without_end];
     blocks := <["B" := block_with_triangle]> ∅ |}.

(** The classifier with another rule table. *)
Definition with_rules (self : RuleBasedClassifier) (table : list Rule)
    : RuleBasedClassifier :=
  {| enable_cache := enable_cache self; cache := rule_based_classifier.cache self;
     stats := stats self; rules := table |}.

(** An entry of the cache holds the fields of a classification. *)
Definition holds (e : cache_manager.CacheEntry) (c : Classification) : Prop :=
  cache_manager.ce_category e = category c
  /\ cache_manager.ce_type e = type c
  /\ cache_manager.ce_confidence e = confidence c
  /\ cache_manager.ce_reasoning e = reasoning c.

End spec.
(** ** Order facts on binary64 values

    The comparisons of primitive floats are specified by [SFcompare] on
    their decoded form; the few order laws the rule scan relies on are
    derived from that specification. *)
Module Float64.

Lemma SFcompare_lt_trans (a b c : spec_float) :
  SFcompare a b = Some Lt -> SFcompare b c = Some Lt -> SFcompare a c = Some Lt.
Proof.
  destruct a as [sa|sa| |sa ma ea], b as [sb|sb| |sb mb eb], c as [sc|sc| |sc mc ec];
    simpl; try discriminate; try tauto;
    repeat match goal with s : bool |- _ => destruct s end;
    simpl; try discriminate; try tauto;
    intros H1 H2; f_equal;
    injection H1 as H1; injection H2 as H2;
    rewrite ?Pos.compare_cont_spec in *; simpl in *;
    destruct (Z.compare_spec ea eb), (Z.compare_spec eb ec), (Z.compare_spec ea ec);
    try discriminate; try lia; subst;
    destruct (Pos.compare_spec ma mb), (Pos.compare_spec mb mc), (Pos.compare_spec ma mc);
    simpl in *; try discriminate; try lia; reflexivity.
Qed.

Lemma SFcompare_lt_eq_trans (a b c : spec_float) :
  SFcompare a b = Some Lt -> SFcompare b c = Some Eq -> SFcompare a c = Some Lt.
Proof.
  destruct a as [sa|sa| |sa ma ea], b as [sb|sb| |sb mb eb], c as [sc|sc| |sc mc ec];
    simpl; try discriminate; try tauto;
    repeat match goal with s : bool |- _ => destruct s end;
    simpl; try discriminate; try tauto;
    intros H1 H2; f_equal;
    injection H1 as H1; injection H2 as H2;
    rewrite ?Pos.compare_cont_spec in *; simpl in *;
    destruct (Z.compare_spec ea eb), (Z.compare_spec eb ec), (Z.compare_spec ea ec);
    try discriminate; try lia; subst;
    destruct (Pos.compare_spec ma mb), (Pos.compare_spec mb mc), (Pos.compare_spec ma mc);
    simpl in *; try discriminate; try lia; reflexivity.
Qed.

Lemma SFcompare_irrefl (a : spec_float) : SFcompare a a <> Some Lt.
Proof.
  destruct a as [s|s| |s m e]; simpl; try discriminate;
    destruct s; try discriminate;
    rewrite Z.compare_refl, Pos.compare_cont_spec, Pos.compare_refl;
    discriminate.
Qed.

Lemma ltb_irrefl (x : float) : (x <? x) = false.
Proof.
  rewrite ltb_spec. unfold SFltb.
  pose proof (SFcompare_irrefl (Prim2SF x)) as H.
  destruct (SFcompare (Prim2SF x) (Prim2SF x)) as [[]|]; congruence.
Qed.

Lemma ltb_trans (x y z : float) :
  (x <? y) = true -> (y <? z) = true -> (x <? z) = true.
Proof.
  rewrite !ltb_spec. unfold SFltb. intros H1 H2.
  destruct (SFcompare (Prim2SF x) (Prim2SF y)) as [[]|] eqn:E1; try discriminate.
  destruct (SFcompare (Prim2SF y) (Prim2SF z)) as [[]|] eqn:E2; try discriminate.
  now rewrite (SFcompare_lt_trans _ _ _ E1 E2).
Qed.

Lemma ltb_leb_trans (x y z : float) :
  (x <? y) = true -> (y <=? z) = true -> (x <? z) = true.
Proof.
  rewrite !ltb_spec, leb_spec. unfold SFltb, SFleb. intros H1 H2.
  destruct (SFcompare (Prim2SF x) (Prim2SF y)) as [[]|] eqn:E1; try discriminate.
  destruct (SFcompare (Prim2SF y) (Prim2SF z)) as [[]|] eqn:E2; try discriminate.
  - now rewrite (SFcompare_lt_eq_trans _ _ _ E1 E2).
  - now rewrite (SFcompare_lt_trans _ _ _ E1 E2).
Qed.

Lemma leb_refl_ltb (x y : float) : (x <? y) = true -> (y <=? x) = false.
Proof.
  intros H. destruct (y <=? x) eqn:E; [|reflexivity].
  pose proof (ltb_leb_trans _ _ _ H E) as Hxx.
  rewrite ltb_irrefl in Hxx. discriminate.
Qed.

Lemma leb_not_ltb (x y : float) : (x <=? y) = true -> (y <? x) = false.
Proof.
  intros H. destruct (y <? x) eqn:E; [|reflexivity].
  rewrite (leb_refl_ltb _ _ E) in H. discriminate.
Qed.

Lemma SFcompare_refl (a : spec_float) : a <> S754_nan -> SFcompare a a = Some Eq.
Proof.
  destruct a as [s|s| |s m e]; simpl; try congruence; intros _;
    destruct s; try reflexivity;
    rewrite Z.compare_refl, Pos.compare_cont_spec, Pos.compare_refl;
    reflexivity.
Qed.

(** A score that exceeds some value is not NaN, and is at most itself. *)
Lemma leb_refl (x y : float) : (y <? x) = true -> (x <=? x) = true.
Proof.
  rewrite ltb_spec, leb_spec. unfold SFltb, SFleb. intros H.
  rewrite SFcompare_refl; [reflexivity|].
  intros Hnan. rewrite Hnan in H.
  destruct (Prim2SF y); simpl in H; discriminate.
Qed.

End Float64.


(** * Properties of the rule-based classifier *)
Module classifier_properties.

Import rule_based_classifier.

Section Scan.

Variable re_search : string -> string -> bool.
Variable format_percent : float -> string.
Variable block_name : string.
Variable context : Context.

Let score (r : Rule) : float := final_confidence re_search block_name context r.
Let result_of (r : Rule) : Classification :=
  rule_classification re_search format_percent block_name context r.
Let step := scan_step re_search format_percent block_name context.

Let eligible := spec.eligible re_search block_name.

Lemma step_cases (st : option Classification * float) (r : Rule) :
  (eligible r = true /\ (snd st <? score r) = true /\
   step st r = (Some (result_of r), score r))
  \/ ((eligible r = false \/ (snd st <? score r) = false) /\ step st r = st).
Proof.
  unfold step, scan_step, eligible, spec.eligible, gtb. fold (score r).
  destruct (0 <? _match_keywords re_search block_name (keywords r)) eqn:E.
  - destruct (snd st <? score r) eqn:E2.
    + left. auto.
    + right. auto.
  - right. auto.
Qed.

(** What the scan computes from a state [(best_match, best_confidence)]:
    either nothing takes the lead, or the state is that of the first rule
    that no rule of the table beats. *)
Lemma scan_from_spec (rules : list Rule) :
  forall (bm : option Classification) (bc : float),
    (fold_left step rules (bm, bc) = (bm, bc)
     /\ forall r, In r rules -> eligible r = true -> (bc <? score r) = false)
    \/ (exists pre r post,
          rules = pre ++ r :: post
          /\ eligible r = true
          /\ (bc <? score r) = true
          /\ fold_left step rules (bm, bc) = (Some (result_of r), score r)
          /\ (forall r', In r' pre -> eligible r' = true -> (score r <=? score r') = false)
          /\ (forall r', In r' rules -> eligible r' = true -> (score r <? score r') = false)).
Proof.
  induction rules as [|r0 rest IH]; intros bm bc.
  - left. split; [reflexivity|]. intros r [].
  - simpl. destruct (step_cases (bm, bc) r0) as [(El & Lt0 & Eq0)|(Hno & Eq0)];
      rewrite Eq0; simpl in *.
    + destruct (IH (Some (result_of r0)) (score r0))
        as [(Efold & Hall)|(pre & r & post & Erules & El' & Lt' & Efold & Hpre & Hall)].
      * right. exists [], r0, rest. repeat split; auto.
        -- intros r' [].
        -- intros r' [<-|Hin] Hel; [apply Float64.ltb_irrefl|auto].
      * right. exists (r0 :: pre), r, post. repeat split; auto.
        -- simpl. now rewrite Erules.
        -- eapply Float64.ltb_trans; eauto.
        -- intros r' [<-|Hin] Hel; [now apply Float64.leb_refl_ltb|auto].
        -- intros r' [Heq|Hin] Hel; [subst r'|auto].
           destruct (score r <? score r0) eqn:E; [|reflexivity].
           pose proof (Float64.ltb_trans _ _ _ Lt' E) as Hxx.
           rewrite Float64.ltb_irrefl in Hxx. discriminate.
    + assert (Hr0 : eligible r0 = true -> (bc <? score r0) = false).
      { destruct Hno as [Hno|Hno]; [intros; congruence|auto]. }
      destruct (IH bm bc)
        as [(Efold & Hall)|(pre & r & post & Erules & El' & Lt' & Efold & Hpre & Hall)].
      * left. split; [assumption|].
        intros r [<-|Hin] Hel; auto.
      * right. exists (r0 :: pre), r, post. repeat split; auto.
        -- simpl. now rewrite Erules.
        -- intros r' [Heq|Hin] Hel; [subst r'|auto].
           destruct (score r <=? score r0) eqn:E; [|reflexivity].
           pose proof (Float64.ltb_leb_trans _ _ _ Lt' E) as Hxx.
           rewrite (Hr0 Hel) in Hxx. discriminate.
        -- intros r' [Heq|Hin] Hel; [subst r'|auto].
           destruct (score r <? score r0) eqn:E; [|reflexivity].
           pose proof (Float64.ltb_trans _ _ _ Lt' E) as Hxx.
           rewrite (Hr0 Hel) in Hxx. discriminate.
Qed.

(** Once a rule has been scanned, the best confidence is never below its
    score. *)
Lemma scan_dominates (rules : list Rule) (st : option Classification * float) (r : Rule) :
  In r rules -> eligible r = true ->
  (snd (fold_left step rules st) <? score r) = false.
Proof.
  intros Hin Hel. destruct st as [bm bc].
  destruct (scan_from_spec rules bm bc)
    as [(Efold & Hall)|(pre & r' & post & _ & _ & _ & Efold & _ & Hall)];
    rewrite Efold; simpl; auto.
Qed.

End Scan.

Section Claims.

Variable re_search : string -> string -> bool.
Variable format_percent : float -> string.

Local Abbreviation classify := (classify re_search format_percent).
Local Abbreviation _classify_by_rules := (_classify_by_rules re_search format_percent).
Local Abbreviation scan := (scan re_search format_percent).
Local Abbreviation scan_step := (scan_step re_search format_percent).
Local Abbreviation final_confidence := (final_confidence re_search).
Local Abbreviation rule_classification := (rule_classification re_search format_percent).
Local Abbreviation eligible := (spec.eligible re_search).
Local Abbreviation decision := (spec.decision re_search format_percent).
Local Abbreviation run_calls := (spec.run_calls re_search format_percent).

Lemma classify_by_rules_decision (self : RuleBasedClassifier) (block_name : string)
    (context : Context) :
  fst (_classify_by_rules self block_name context)
  = decision (rules self) block_name context.
Proof.
  unfold rule_based_classifier._classify_by_rules, spec.decision.
  destruct (scan block_name context (rules self)) as [[best|] bc];
    [destruct (bc >? 0.5)|]; reflexivity.
Qed.

Lemma classify_by_rules_state (self : RuleBasedClassifier) (block_name : string)
    (context : Context) :
  let self' := snd (_classify_by_rules self block_name context) in
  enable_cache self' = enable_cache self /\ cache self' = cache self
  /\ rules self' = rules self.
Proof.
  unfold rule_based_classifier._classify_by_rules.
  destruct (scan block_name context (rules self)) as [[best|] bc];
    [destruct (bc >? 0.5)|]; simpl; auto.
Qed.

Lemma classify_miss (self : RuleBasedClassifier) (block_name : string)
    (context : option Context) (now : string) :
  cache_probe self block_name = None ->
  fst (classify self block_name context now)
  = decision (rules self) block_name (default empty_context context).
Proof.
  intros Hmiss. unfold rule_based_classifier.classify.
  change (cache_probe (with_stats self (bump_total_requests (stats self))) block_name)
    with (cache_probe self block_name).
  rewrite Hmiss.
  pose proof (classify_by_rules_decision
                (with_stats self (bump_total_requests (stats self)))
                block_name (default empty_context context)) as Hd.
  destruct (_classify_by_rules _ block_name (default empty_context context))
    as [result self'].
  simpl in *. exact Hd.
Qed.

(** C1. Without a cache hit, [classify] returns the best-scoring rule's
    category and type, with the score as confidence and the method tag
    ["rule-based"], exactly when the best final score exceeds 0.5; otherwise
    it returns other / unclassified / 0.3.  In particular it does so when
    every rule that scores is at most 0.5. *)
Theorem classify_threshold (self : RuleBasedClassifier) (block_name : string)
    (context : option Context) (now : string) :
  cache_probe self block_name = None ->
  let ctx := default empty_context context in
  let best := snd (scan block_name ctx (rules self)) in
  let result := fst (classify self block_name context now) in
  (forall r, In r (rules self) -> eligible block_name r = true ->
             (best <? final_confidence block_name ctx r) = false)
  /\ ((best >? 0.5) = true ->
      exists r, In r (rules self) /\ eligible block_name r = true
                /\ final_confidence block_name ctx r = best
                /\ result = rule_classification block_name ctx r
                /\ category result = r_category r /\ type result = r_type r
                /\ confidence result = best /\ method result = "rule-based")
  /\ ((best >? 0.5) = false ->
      result = unclassified_result
      /\ category result = "other" /\ type result = "unclassified"
      /\ confidence result = 0.3)
  /\ ((forall r, In r (rules self) -> eligible block_name r = true ->
                 (final_confidence block_name ctx r <=? 0.5) = true) ->
      category result = "other" /\ type result = "unclassified"
      /\ confidence result = 0.3)
  /\ ((forall r, In r (rules self) -> r_category r <> "other") ->
      ((best >? 0.5) = true
       <-> exists r, In r (rules self) /\ category result = r_category r)).
Proof.
  intros Hmiss ctx best result.
  assert (Hres : result = decision (rules self) block_name ctx)
    by (apply classify_miss; exact Hmiss).
  unfold spec.decision in Hres. unfold best. clear best.
  unfold rule_based_classifier.scan in *.
  destruct (scan_from_spec re_search format_percent block_name ctx (rules self) None 0.0)
    as [(Efold & Hall)|(pre & r & post & Erules & El & Lt0 & Efold & Hpre & Hall)];
    rewrite Efold in *; simpl in *.
  - split; [exact Hall|]. split; [|split; [|split]].
    + intros Habs. vm_compute in Habs. discriminate.
    + intros _. rewrite Hres. repeat split.
    + intros _. rewrite Hres. repeat split.
    + intros Hnot. split.
      * intros Habs. vm_compute in Habs. discriminate.
      * intros (r & Hin & Hcat). rewrite Hres in Hcat.
        exfalso. apply (Hnot r Hin). now rewrite <- Hcat.
  - assert (Hin : In r (rules self)) by (rewrite Erules; apply in_elt).
    split; [exact Hall|]. split; [|split; [|split]].
    + intros Hgt. rewrite Hgt in Hres. exists r. rewrite Hres. repeat split; auto.
    + intros Hle. rewrite Hle in Hres. rewrite Hres. repeat split.
    + intros Hle5. pose proof (Float64.leb_not_ltb _ _ (Hle5 r Hin El)) as Hno.
      unfold gtb in Hres. rewrite Hno in Hres. rewrite Hres. repeat split.
    + intros Hnot. split.
      * intros Hgt. rewrite Hgt in Hres. exists r. rewrite Hres. now split.
      * intros (r' & Hin' & Hcat).
        destruct (final_confidence block_name ctx r >? 0.5); [reflexivity|].
        rewrite Hres in Hcat. exfalso. apply (Hnot r' Hin'). now rewrite <- Hcat.
Qed.

(** No rule of the table is labelled with the fallback category. *)
Lemma build_rules_not_other :
  forall r, In r _build_rules -> r_category r <> "other".
Proof.
  apply (proj1 (List.Forall_forall _ _)). repeat constructor; discriminate.
Qed.


(** *** Tie-break *)

Lemma fold_steps_fixed (block_name : string) (ctx : Context) (rs : list Rule)
    (st : option Classification * float) :
  (forall r, In r rs -> eligible block_name r = true ->
             (snd st <? final_confidence block_name ctx r) = false) ->
  fold_left (scan_step block_name ctx) rs st = st.
Proof.
  intros Hall. destruct st as [bm bc].
  destruct (scan_from_spec re_search format_percent block_name ctx rs bm bc)
    as [(Efold & _)|(pre & r & post & Erules & El & Lt0 & _)]; [exact Efold|].
  simpl in Hall. rewrite Hall in Lt0; [discriminate| |exact El].
  rewrite Erules. apply in_elt.
Qed.

Lemma tied_rule_inert (block_name : string) (ctx : Context)
    (pre mid post : list Rule) (r1 r2 : Rule) :
  eligible block_name r1 = true ->
  final_confidence block_name ctx r2 = final_confidence block_name ctx r1 ->
  scan block_name ctx (pre ++ r1 :: mid ++ r2 :: post)
  = scan block_name ctx (pre ++ r1 :: mid ++ post).
Proof.
  intros El Htie. unfold rule_based_classifier.scan.
  replace (pre ++ r1 :: mid ++ r2 :: post) with ((pre ++ r1 :: mid) ++ r2 :: post)
    by (rewrite <- app_assoc; reflexivity).
  replace (pre ++ r1 :: mid ++ post) with ((pre ++ r1 :: mid) ++ post)
    by (rewrite <- app_assoc; reflexivity).
  rewrite (fold_left_app _ (pre ++ r1 :: mid) (r2 :: post)),
    (fold_left_app _ (pre ++ r1 :: mid) post).
  simpl. f_equal.
  set (st := fold_left (scan_step block_name ctx) (pre ++ r1 :: mid) (None, 0.0)).
  assert (Hdom : (snd st <? final_confidence block_name ctx r1) = false).
  { apply scan_dominates; [apply in_elt|exact El]. }
  destruct (step_cases re_search format_percent block_name ctx st r2)
    as [(_ & Lt2 & _)|(_ & Eq2)]; [|exact Eq2].
  rewrite Htie in Lt2. congruence.
Qed.

Lemma first_maximal_wins (block_name : string) (ctx : Context)
    (pre post : list Rule) (r : Rule) :
  eligible block_name r = true ->
  (final_confidence block_name ctx r >? 0.5) = true ->
  (forall r', In r' pre -> eligible block_name r' = true ->
     (final_confidence block_name ctx r' <? final_confidence block_name ctx r) = true) ->
  (forall r', In r' post -> eligible block_name r' = true ->
     (final_confidence block_name ctx r' <=? final_confidence block_name ctx r) = true) ->
  scan block_name ctx (pre ++ r :: post)
  = (Some (rule_classification block_name ctx r), final_confidence block_name ctx r).
Proof.
  intros El Hgt Hpre Hpost. unfold rule_based_classifier.scan.
  rewrite fold_left_app. simpl.
  assert (Hzero : (0.0 <? final_confidence block_name ctx r) = true).
  { eapply Float64.ltb_trans; [|exact Hgt]. reflexivity. }
  assert (Hbefore : (snd (fold_left (scan_step block_name ctx) pre (None, 0.0))
                     <? final_confidence block_name ctx r) = true).
  { destruct (scan_from_spec re_search format_percent block_name ctx pre None 0.0)
      as [(Efold & _)|(pre' & r' & post' & Erules & El' & _ & Efold & _)];
      rewrite Efold; simpl; [exact Hzero|].
    apply Hpre; [rewrite Erules; apply in_elt|exact El']. }
  destruct (step_cases re_search format_percent block_name ctx
              (fold_left (scan_step block_name ctx) pre (None, 0.0)) r)
    as [(_ & _ & Estep)|([Hno|Hno] & _)]; [|congruence|congruence].
  rewrite Estep. apply fold_steps_fixed. simpl.
  intros r' Hin El'. apply Float64.leb_not_ltb. now apply Hpost.
Qed.

(** A rule tying an earlier scoring rule leaves the lead where it is. *)
Lemma tied_rule_keeps_lead (block_name : string) (ctx : Context)
    (pre mid : list Rule) (r1 r2 : Rule) :
  eligible block_name r1 = true ->
  final_confidence block_name ctx r2 = final_confidence block_name ctx r1 ->
  scan_step block_name ctx (scan block_name ctx (pre ++ r1 :: mid)) r2
  = scan block_name ctx (pre ++ r1 :: mid).
Proof.
  intros El Htie. unfold rule_based_classifier.scan.
  set (st := fold_left (scan_step block_name ctx) (pre ++ r1 :: mid) (None, 0.0)).
  assert (Hdom : (snd st <? final_confidence block_name ctx r1) = false).
  { apply scan_dominates; [apply in_elt|exact El]. }
  destruct (step_cases re_search format_percent block_name ctx st r2)
    as [(_ & Lt2 & _)|(_ & Eq2)]; [|exact Eq2].
  rewrite Htie in Lt2. congruence.
Qed.

(** C2. A rule replaces the current best match only when its final score is
    strictly greater: a step that changes the lead is one of a strictly
    greater score and hands the lead, with category, type and confidence,
    to its rule, and a score that is not strictly greater leaves the lead
    as it is.  Hence a rule whose score ties that of an earlier scoring
    rule never takes the lead (the table without it classifies the same),
    and the first rule to reach the highest score wins: of two tied rules
    [classify] returns the category and type of the earlier one. *)
Theorem scan_tie_break (block_name : string) (ctx : Context) :
  (forall st r, scan_step block_name ctx st r <> st ->
     (final_confidence block_name ctx r >? snd st) = true
     /\ scan_step block_name ctx st r
        = (Some (rule_classification block_name ctx r),
           final_confidence block_name ctx r)
     /\ exists lead,
          fst (scan_step block_name ctx st r) = Some lead
          /\ category lead = r_category r /\ type lead = r_type r
          /\ confidence lead = final_confidence block_name ctx r
          /\ snd (scan_step block_name ctx st r) = final_confidence block_name ctx r)
  /\ (forall st r,
        (final_confidence block_name ctx r >? snd st) = false ->
        scan_step block_name ctx st r = st)
  /\ (forall pre r1 mid r2,
        eligible block_name r1 = true ->
        final_confidence block_name ctx r2 = final_confidence block_name ctx r1 ->
        scan_step block_name ctx (scan block_name ctx (pre ++ r1 :: mid)) r2
        = scan block_name ctx (pre ++ r1 :: mid))
  /\ (forall self self' pre r1 mid r2 post,
        rules self = pre ++ r1 :: mid ++ r2 :: post ->
        rules self' = pre ++ r1 :: mid ++ post ->
        eligible block_name r1 = true ->
        final_confidence block_name ctx r2 = final_confidence block_name ctx r1 ->
        fst (_classify_by_rules self block_name ctx)
        = fst (_classify_by_rules self' block_name ctx))
  /\ (forall self pre r post,
        rules self = pre ++ r :: post ->
        eligible block_name r = true ->
        (final_confidence block_name ctx r >? 0.5) = true ->
        (forall r', In r' pre -> eligible block_name r' = true ->
           (final_confidence block_name ctx r' <? final_confidence block_name ctx r)
           = true) ->
        (forall r', In r' post -> eligible block_name r' = true ->
           (final_confidence block_name ctx r' <=? final_confidence block_name ctx r)
           = true) ->
        let result := fst (_classify_by_rules self block_name ctx) in
        result = rule_classification block_name ctx r
        /\ category result = r_category r /\ type result = r_type r
        /\ confidence result = final_confidence block_name ctx r
        /\ method result = "rule-based")
  /\ (forall self now pre r1 mid r2 post,
        cache_probe self block_name = None ->
        rules self = pre ++ r1 :: mid ++ r2 :: post ->
        eligible block_name r1 = true ->
        final_confidence block_name ctx r2 = final_confidence block_name ctx r1 ->
        (final_confidence block_name ctx r1 >? 0.5) = true ->
        (forall r', In r' pre -> eligible block_name r' = true ->
           (final_confidence block_name ctx r' <? final_confidence block_name ctx r1)
           = true) ->
        (forall r', In r' (mid ++ post) -> eligible block_name r' = true ->
           (final_confidence block_name ctx r' <=? final_confidence block_name ctx r1)
           = true) ->
        let result := fst (classify self block_name (Some ctx) now) in
        category result = r_category r1 /\ type result = r_type r1
        /\ confidence result = final_confidence block_name ctx r1
        /\ method result = "rule-based").
Proof.
  assert (Hwins : forall table pre r post,
            table = pre ++ r :: post ->
            eligible block_name r = true ->
            (final_confidence block_name ctx r >? 0.5) = true ->
            (forall r', In r' pre -> eligible block_name r' = true ->
               (final_confidence block_name ctx r' <? final_confidence block_name ctx r)
               = true) ->
            (forall r', In r' post -> eligible block_name r' = true ->
               (final_confidence block_name ctx r' <=? final_confidence block_name ctx r)
               = true) ->
            decision table block_name ctx = rule_classification block_name ctx r).
  { intros table pre r post E El Hgt Hpre Hpost. unfold spec.decision.
    rewrite E, (first_maximal_wins block_name ctx pre post r El Hgt Hpre Hpost).
    now rewrite Hgt. }
  split; [|split; [|split; [|split; [|split]]]].
  - intros st r Hne.
    destruct (step_cases re_search format_percent block_name ctx st r)
      as [(_ & Lt0 & Estep)|(_ & Estep)]; [|congruence].
    split; [exact Lt0|]. split; [exact Estep|].
    exists (rule_classification block_name ctx r). rewrite Estep. repeat split.
  - intros st r Hle.
    destruct (step_cases re_search format_percent block_name ctx st r)
      as [(_ & Lt0 & _)|(_ & Estep)]; [|exact Estep].
    unfold gtb in Hle. congruence.
  - intros pre r1 mid r2. apply tied_rule_keeps_lead.
  - intros self self' pre r1 mid r2 post E E' El Htie.
    rewrite !classify_by_rules_decision. unfold spec.decision.
    rewrite E, E'. now rewrite (tied_rule_inert block_name ctx pre mid post r1 r2).
  - intros self pre r post E El Hgt Hpre Hpost result. unfold result.
    rewrite classify_by_rules_decision, (Hwins _ pre r post E El Hgt Hpre Hpost).
    repeat split.
  - intros self now pre r1 mid r2 post Hmiss E El Htie Hgt Hpre Hpost result.
    unfold result. rewrite (classify_miss self block_name (Some ctx) now Hmiss).
    change (default empty_context (Some ctx)) with ctx.
    rewrite (Hwins _ pre r1 (mid ++ r2 :: post) E El Hgt Hpre); [repeat split|].
    intros r' Hin Hel. apply in_app_or in Hin.
    destruct Hin as [Hin|[Heq|Hin]].
    + apply Hpost; [apply in_or_app; now left|exact Hel].
    + subst r'. rewrite Htie. eapply Float64.leb_refl. exact Hgt.
    + apply Hpost; [apply in_or_app; now right|exact Hel].
Qed.

(** *** Geometry score *)

Ltac split_ifs :=
  repeat match goal with
         | |- context [if ?b then _ else _] => destruct b
         end.

(** C3, as the code has it. The geometry score is the product of an area
    factor and a vertex-count factor: 1.0 within the declared range; for the
    area 0.3 below half the minimum or above double the maximum and 0.7
    otherwise; for the vertex count 0.5 outside the range; and 1.0 for an
    axis with no declared range or no value, a value of zero counting as no
    value. *)
Theorem match_geometry_factors (context : Context) (rule : Rule) :
  _match_geometry context rule
  = spec.area_factor (area_range rule) (spec.effective_area context)
    * spec.vertex_factor (vertex_range rule) (spec.effective_vertex_count context).
Proof.
  unfold _match_geometry, spec.area_factor, spec.vertex_factor,
    spec.effective_area, spec.effective_vertex_count.
  destruct (area_range rule) as [[min_area max_area]|], (area context) as [a|],
    (vertex_range rule) as [[min_v max_v]|], (vertex_count context) as [n|];
    split_ifs; reflexivity.
Qed.

(** C10. A context value of zero is no value: the geometry score, and with
    it the whole classification, is that of the context without it, also
    for a rule whose declared range puts 0.0 far out of range. *)
Theorem zero_context_value_is_absent (self : RuleBasedClassifier)
    (block_name : string) (now : string) :
  (forall rule vc,
     _match_geometry {| area := Some 0.0; vertex_count := vc |} rule
     = _match_geometry {| area := None; vertex_count := vc |} rule)
  /\ (forall rule a,
        _match_geometry {| area := a; vertex_count := Some 0%Z |} rule
        = _match_geometry {| area := a; vertex_count := None |} rule)
  /\ classify self block_name (Some {| area := Some 0.0; vertex_count := None |}) now
     = classify self block_name (Some empty_context) now
  /\ classify self block_name (Some {| area := Some 0.0; vertex_count := None |}) now
     = classify self block_name None now
  /\ classify self block_name (Some {| area := None; vertex_count := Some 0%Z |}) now
     = classify self block_name None now
  /\ (forall rule min_area max_area,
        area_range rule = Some (min_area, max_area) ->
        (min_area <=? 0.0) = false ->
        (0.0 <? min_area * 0.5) = true ->
        spec.area_factor (area_range rule) (Some 0.0) = 0.3
        /\ _match_geometry {| area := Some 0.0; vertex_count := None |} rule = 1.0).
Proof.
  assert (Hgeo : forall rule vc,
     _match_geometry {| area := Some 0.0; vertex_count := vc |} rule
     = _match_geometry {| area := None; vertex_count := vc |} rule).
  { intros rule vc. unfold _match_geometry. simpl.
    destruct (area_range rule) as [[min_area max_area]|]; reflexivity. }
  assert (Hgeo' : forall rule a,
        _match_geometry {| area := a; vertex_count := Some 0%Z |} rule
        = _match_geometry {| area := a; vertex_count := None |} rule).
  { intros rule a. unfold _match_geometry. simpl.
    destruct (vertex_range rule) as [[min_v max_v]|]; reflexivity. }
  assert (Hext : forall c1 c2,
     (forall rule, _match_geometry c1 rule = _match_geometry c2 rule) ->
     classify self block_name (Some c1) now = classify self block_name (Some c2) now).
  { intros c1 c2 H. unfold rule_based_classifier.classify.
    destruct (cache_probe _ block_name); [reflexivity|]. simpl.
    assert (Hstep : forall st r, scan_step block_name c1 st r = scan_step block_name c2 st r).
    { intros st r. unfold rule_based_classifier.scan_step,
        rule_based_classifier.rule_classification,
        rule_based_classifier.final_confidence. now rewrite H. }
    assert (Hscan : forall rs st, fold_left (scan_step block_name c1) rs st
                                  = fold_left (scan_step block_name c2) rs st).
    { induction rs as [|r rs IH]; intros st; simpl; [reflexivity|].
      now rewrite Hstep, IH. }
    unfold rule_based_classifier._classify_by_rules, rule_based_classifier.scan.
    now rewrite Hscan. }
  split; [exact Hgeo|]. split; [exact Hgeo'|].
  split; [apply Hext; intros rule; apply Hgeo|].
  split; [|split].
  - change (classify self block_name None now)
      with (classify self block_name (Some empty_context) now).
    apply Hext. intros rule. apply Hgeo.
  - change (classify self block_name None now)
      with (classify self block_name (Some empty_context) now).
    apply Hext. intros rule. apply Hgeo'.
  - intros rule min_area max_area Hrange Hout Hfar. split.
    + rewrite Hrange. unfold spec.area_factor. now rewrite Hout, Hfar.
    + rewrite Hgeo. unfold _match_geometry. simpl.
      destruct (area_range rule) as [[? ?]|], (vertex_range rule) as [[? ?]|];
        reflexivity.
Qed.


(** *** Cache and determinism *)

Lemma classify_hit (self : RuleBasedClassifier) (block_name : string)
    (context : option Context) (now : string) (e : cache_manager.CacheEntry) :
  cache_probe self block_name = Some e ->
  classify self block_name context now
  = ({| category := cache_manager.ce_category e;
        type := cache_manager.ce_type e;
        confidence := cache_manager.ce_confidence e;
        reasoning := cache_manager.ce_reasoning e;
        method := "cached" |},
     with_stats self (bump_cache_hits (bump_total_requests (stats self)))).
Proof.
  intros Hhit. unfold rule_based_classifier.classify.
  change (cache_probe (with_stats self (bump_total_requests (stats self))) block_name)
    with (cache_probe self block_name).
  now rewrite Hhit.
Qed.

Lemma classify_state (self : RuleBasedClassifier) (block_name : string)
    (context : option Context) (now : string) :
  let result := fst (classify self block_name context now) in
  let self' := snd (classify self block_name context now) in
  rules self' = rules self
  /\ match active_cache self with
     | None => active_cache self' = None
     | Some cm =>
         exists cm', active_cache self' = Some cm'
           /\ (forall k e, cache_manager.get cm k = Some e ->
                           cache_manager.get cm' k = Some e)
           /\ exists e, cache_manager.get cm' block_name = Some e /\ spec.holds e result
     end.
Proof.
  destruct (cache_probe self block_name) as [e|] eqn:Hprobe.
  - rewrite (classify_hit _ _ _ _ _ Hprobe). simpl. split; [reflexivity|].
    change (active_cache (with_stats self (bump_cache_hits (bump_total_requests (stats self)))))
      with (active_cache self).
    unfold cache_probe in Hprobe.
    destruct (active_cache self) as [cm|]; [|discriminate].
    exists cm. split; [reflexivity|]. split; [auto|].
    exists e. split; [exact Hprobe|]. repeat split.
  - unfold rule_based_classifier.classify.
    change (cache_probe (with_stats self (bump_total_requests (stats self))) block_name)
      with (cache_probe self block_name).
    rewrite Hprobe.
    pose proof (classify_by_rules_state
                  (with_stats self (bump_total_requests (stats self)))
                  block_name (default empty_context context)) as (Hen & Hca & Hru).
    destruct (_classify_by_rules _ block_name (default empty_context context))
      as [result self1].
    simpl in Hen, Hca, Hru.
    assert (Hact : active_cache self1 = active_cache self).
    { unfold active_cache. now rewrite Hen, Hca. }
    rewrite Hact. unfold cache_probe in Hprobe.
    destruct (active_cache self) as [cm|] eqn:Hcm; simpl.
    + split; [exact Hru|].
      exists (cache_manager.set cm block_name (category result) (type result)
                (confidence result) (reasoning result) now).
      split.
      * unfold active_cache, with_cache. simpl. rewrite Hen.
        unfold active_cache in Hcm. destruct (enable_cache self); [reflexivity|discriminate].
      * split.
        -- intros k e Hk. unfold cache_manager.get, cache_manager.set in *. simpl.
           rewrite lookup_insert_ne; [exact Hk|]. intros ->. congruence.
        -- eexists. split.
           ++ unfold cache_manager.get, cache_manager.set. simpl.
              apply lookup_insert_eq.
           ++ repeat split.
    + split; [exact Hru|exact Hact].
Qed.

Lemma run_calls_state (calls : list (string * option Context * string)) :
  forall self,
    rules (run_calls calls self) = rules self
    /\ match active_cache self with
       | None => active_cache (run_calls calls self) = None
       | Some cm =>
           exists cm', active_cache (run_calls calls self) = Some cm'
             /\ (forall k e, cache_manager.get cm k = Some e ->
                             cache_manager.get cm' k = Some e)
       end.
Proof.
  induction calls as [|[[n c] t] calls IH]; intros self; simpl.
  - split; [reflexivity|]. destruct (active_cache self) as [cm|]; eauto.
  - pose proof (classify_state self n c t) as (Hru & Hst). simpl in Hru, Hst.
    destruct (IH (snd (classify self n c t))) as (Hru' & Hst').
    split; [congruence|].
    destruct (active_cache self) as [cm|].
    + destruct Hst as (cm1 & Hact1 & Hkeep1 & _). rewrite Hact1 in Hst'.
      destruct Hst' as (cm2 & Hact2 & Hkeep2). exists cm2. split; auto.
    + now rewrite Hst in Hst'.
Qed.

(** C8. Repeated calls of [classify] with the same name and context return
    the same category, type and confidence, whatever calls come between; and
    with the cache in use every call after the first returns the cached
    result of the first with the method tag ["cached"], without scoring:
    whatever the context and the rule table, with the rule counters and the
    cache untouched. *)
Theorem classify_deterministic (self : RuleBasedClassifier) (block_name : string)
    (context : option Context) (now now' : string)
    (calls : list (string * option Context * string)) :
  let first := classify self block_name context now in
  let before := run_calls calls (snd first) in
  let later := classify before block_name context now' in
  (category (fst later) = category (fst first)
   /\ type (fst later) = type (fst first)
   /\ confidence (fst later) = confidence (fst first))
  /\ (is_Some (active_cache self) ->
      forall context' table,
        let again :=
          classify (spec.with_rules before table) block_name context' now' in
        method (fst again) = "cached"
        /\ category (fst again) = category (fst first)
        /\ type (fst again) = type (fst first)
        /\ confidence (fst again) = confidence (fst first)
        /\ reasoning (fst again) = reasoning (fst first)
        /\ rule_matches (stats (snd again)) = rule_matches (stats before)
        /\ unclassified (stats (snd again)) = unclassified (stats before)
        /\ cache (snd again) = cache before).
Proof.
  intros first before later.
  pose proof (classify_state self block_name context now) as (Hru & Hst).
  fold first in Hru, Hst. simpl in Hru, Hst.
  pose proof (run_calls_state calls (snd first)) as (Hru' & Hst').
  fold before in Hru', Hst'.
  destruct (active_cache self) as [cm|] eqn:Hcm.
  - destruct Hst as (cm1 & Hact1 & _ & e & He & Hholds).
    rewrite Hact1 in Hst'. destruct Hst' as (cm2 & Hact2 & Hkeep).
    assert (Hprobe : cache_probe before block_name = Some e).
    { unfold cache_probe. rewrite Hact2. now apply Hkeep. }
    destruct Hholds as (Hc & Ht & Hf & Hr).
    split.
    + unfold later. rewrite (classify_hit _ _ _ _ _ Hprobe). simpl. auto.
    + intros _ context' table again. unfold again.
      assert (Hprobe' : cache_probe (spec.with_rules before table) block_name = Some e)
        by exact Hprobe.
      rewrite (classify_hit _ _ _ _ _ Hprobe'). simpl. repeat split; auto.
  - rewrite Hst in Hst'. split.
    + assert (Hmiss : cache_probe self block_name = None).
      { unfold cache_probe. now rewrite Hcm. }
      assert (Hmiss' : cache_probe before block_name = None).
      { unfold cache_probe. now rewrite Hst'. }
      unfold later, first.
      rewrite (classify_miss _ _ _ _ Hmiss), (classify_miss _ _ _ _ Hmiss').
      rewrite Hru', Hru. auto.
    + intros [? Habs]. discriminate.
Qed.

End Claims.

End classifier_properties.

(** * Properties of the geometry utilities and of the block extractor *)
Module extractor_properties.

Import geometry_processor block_extractor.

Lemma fold_append_map {A B} (f : A -> B) (l : list A) (init : list B) :
  fold_left (fun acc x => acc ++ [f x]) l init = init ++ map f l.
Proof.
  revert init. induction l as [|x l IH]; intros init; simpl.
  - now rewrite app_nil_r.
  - rewrite IH, <- app_assoc. reflexivity.
Qed.

Lemma fold_left_pointwise {A B} (f g : A -> B -> A) :
  (forall a b, f a b = g a b) ->
  forall l a, fold_left f l a = fold_left g l a.
Proof.
  intros Hfg. induction l as [|x l IH]; intros a; simpl; [reflexivity|].
  now rewrite Hfg, IH.
Qed.

Section Transform.

Variables radians cos sin : float -> float.

Local Abbreviation transform_vertices := (transform_vertices radians cos sin).

Lemma transform_vertices_map (vertices : list Vertex) (insert_point : float * float)
    (rotation scale_x scale_y : float) :
  transform_vertices vertices insert_point rotation scale_x scale_y
  = map (fun v => spec.translate insert_point
                    (spec.rotate (cos (radians rotation)) (sin (radians rotation))
                       (spec.scale scale_x scale_y v)))
        vertices.
Proof.
  unfold geometry_processor.transform_vertices.
  destruct vertices as [|v vs]; [reflexivity|].
  set (f := fun v => spec.translate insert_point
                       (spec.rotate (cos (radians rotation)) (sin (radians rotation))
                          (spec.scale scale_x scale_y v))).
  rewrite <- (app_nil_l (map f (v :: vs))), <- fold_append_map.
  apply fold_left_pointwise. intros acc [x y]. reflexivity.
Qed.

Lemma vertices_eqb_refl_false (vs ws : list Vertex) :
  spec.vertices_eqb vs vs = true -> spec.vertices_eqb vs ws = false -> vs <> ws.
Proof. intros Hrefl Hdiff ->. congruence. Qed.

(** C4. [transform_vertices] maps every vertex through, in this order, the
    X/Y scaling, the rotation about the origin by the angle and the
    translation by the insertion point.  For the square of side 10 centred
    at the origin, scale (2,1), 90 degrees and insertion point (100,100)
    this gives the rectangle with corners (105,90), (105,110), (95,110),
    (95,90), which none of the five other orders of the three steps
    gives. *)
Theorem transform_vertices_order :
  (forall vertices insert_point rotation scale_x scale_y,
     transform_vertices vertices insert_point rotation scale_x scale_y
     = map (spec.in_order
              [spec.scale scale_x scale_y;
               spec.rotate (cos (radians rotation)) (sin (radians rotation));
               spec.translate insert_point])
           vertices)
  /\ (cos (radians 90) = spec.cos_quarter_turn ->
      sin (radians 90) = spec.sin_quarter_turn ->
      let S := spec.scale 2 1 in
      let R := spec.rotate spec.cos_quarter_turn spec.sin_quarter_turn in
      let T := spec.translate (100, 100) in
      let placed := transform_vertices spec.square10 (100, 100) 90 2 1 in
      placed = [(105, 90); (105, 110); (95, 110); (95, 90)]
      /\ placed = map (spec.in_order [S; R; T]) spec.square10
      /\ Forall (fun steps => map (spec.in_order steps) spec.square10 <> placed)
           [[S; T; R]; [R; S; T]; [R; T; S]; [T; S; R]; [T; R; S]]).
Proof.
  split.
  - intros. apply transform_vertices_map.
  - intros Hcos Hsin S R T placed.
    assert (Hplaced : placed = [(105, 90); (105, 110); (95, 110); (95, 90)]).
    { unfold placed. rewrite transform_vertices_map, Hcos, Hsin.
      vm_compute. reflexivity. }
    split; [exact Hplaced|]. split.
    + rewrite Hplaced. vm_compute. reflexivity.
    + rewrite Hplaced.
      repeat match goal with
             | |- Forall _ (_ :: _) =>
                 constructor;
                 [apply not_eq_sym; apply vertices_eqb_refl_false;
                  vm_compute; reflexivity|]
             end.
      constructor.
Qed.

End Transform.

Section Extractor.

Variables radians cos sin : float -> float.
Variable Matrix44 : Type.
Variable doc : Drawing.

Local Abbreviation _extract_from_insert :=
  (_extract_from_insert radians cos sin Matrix44 doc).
Local Abbreviation extract_all_blocks :=
  (extract_all_blocks radians cos sin Matrix44 doc).
Local Abbreviation _extract_block_geometry := (_extract_block_geometry cos sin).
Local Abbreviation scan_block := (scan_block cos sin).
Local Abbreviation placed_entity := (placed_entity radians cos sin).
Local Abbreviation own_entities := (own_entities radians cos sin).
Local Abbreviation resolve_result := (spec.resolve_result cos sin).
Local Abbreviation resolve_cache := (spec.resolve_cache cos sin).

(** *** The resolver *)

Lemma extract_block_geometry_eq (block : Block) (cache : GeometryCache) :
  _extract_block_geometry block cache
  = inr (resolve_result block cache, resolve_cache block cache).
Proof.
  unfold block_extractor._extract_block_geometry, spec.resolve_result,
    spec.resolve_cache.
  destruct (cache !! block_name_of block); [reflexivity|].
  destruct (scan_block block) as [[|v vs]|]; reflexivity.
Qed.

Lemma resolve_cache_extends (block : Block) (cache : GeometryCache) :
  cache ⊆ resolve_cache block cache.
Proof.
  unfold spec.resolve_cache.
  destruct (cache !! block_name_of block) eqn:E; [reflexivity|].
  destruct (scan_block block) as [[|v vs]|]; try reflexivity.
  now apply insert_subseteq.
Qed.

(** A geometry an INSERT is placed with is the one the memo table holds. *)
Lemma resolve_result_memoized (block : Block) (cache : GeometryCache)
    (v : Vertex) (vs : list Vertex) :
  resolve_result block cache = Some (v :: vs) ->
  resolve_cache block cache !! block_name_of block = Some (v :: vs).
Proof.
  unfold spec.resolve_result, spec.resolve_cache.
  destruct (cache !! block_name_of block) eqn:E.
  - intros [= ->]. exact E.
  - intros ->. apply lookup_insert_eq.
Qed.

(** The scan keeps a polyline only if it has three vertices or more. *)
Lemma scan_entity_keeps (st : option (list Vertex) * float) (entity : Entity)
    (P : list Vertex -> Prop) :
  (forall vs, fst st = Some vs -> P vs) ->
  (forall vs, entity_vertices cos sin entity = Some vs ->
              (3 <= length vs)%nat -> P vs) ->
  forall vs, fst (scan_entity cos sin st entity) = Some vs -> P vs.
Proof.
  intros Hst Hent vs. unfold scan_entity.
  destruct (entity_vertices cos sin entity) as [[|w ws]|] eqn:E; auto.
  destruct (3 <=? length (w :: ws))%nat eqn:E3; auto.
  destruct (calculate_area (w :: ws) >? snd st); auto.
  simpl. intros [= <-]. apply Hent; [reflexivity|].
  now apply Nat.leb_le.
Qed.

Lemma scan_block_keeps (block : Block) (P : list Vertex -> Prop) :
  (forall entity vs, In entity (block_entities block) ->
                     entity_vertices cos sin entity = Some vs ->
                     (3 <= length vs)%nat -> P vs) ->
  forall vs, scan_block block = Some vs -> P vs.
Proof.
  unfold block_extractor.scan_block.
  assert (H : forall es st,
             (forall vs, fst st = Some vs -> P vs) ->
             (forall entity vs, In entity es ->
                entity_vertices cos sin entity = Some vs ->
                (3 <= length vs)%nat -> P vs) ->
             forall vs, fst (fold_left (scan_entity cos sin) es st) = Some vs -> P vs).
  { induction es as [|e es IH]; intros st Hst Hes; simpl; [exact Hst|].
    apply IH.
    - apply scan_entity_keeps; [exact Hst|]. intros vs. apply Hes. now left.
    - intros entity vs Hin. apply Hes. now right. }
  intros Hes. apply H; [|exact Hes]. simpl. discriminate.
Qed.

(** *** The traversal *)

Lemma finite_rotation_places (i : Insert) (geometry : option (list Vertex)) :
  spec.finite_rotation radians i -> spec.place_raises radians i geometry = false.
Proof.
  unfold spec.finite_rotation, spec.place_raises, transform_vertices_raises.
  intros Hfinite. destruct geometry as [[|v vs]|]; auto.
Qed.

Lemma extract_unfold (insert_entity : Insert) (depth max_depth : Z)
    (parent_transform : option Matrix44) (cache : GeometryCache) :
  _extract_from_insert insert_entity depth max_depth parent_transform cache
  = if Z_gt_dec depth max_depth then inr ([], cache)
    else
      match blocks doc !! name insert_entity with
      | None => inr ([], cache)
      | Some block =>
          if spec.place_raises radians insert_entity (resolve_result block cache)
          then inl (ValueError "math domain error")
          else
            for_each
              (extend_with_insert
                 (fun nested => _extract_from_insert nested (depth + 1) max_depth None))
              (block_entities block)
              (own_entities insert_entity (resolve_result block cache))
              (resolve_cache block cache)
      end.
Proof.
  rewrite _extract_from_insert_equation_1.
  destruct (Z_gt_dec depth max_depth); simpl; [reflexivity|].
  unfold blocks_contains, blocks_getitem.
  destruct (blocks doc !! name insert_entity) as [block|]; simpl; [|reflexivity].
  unfold bind at 1. unfold ret at 1. unfold bind at 1.
  rewrite extract_block_geometry_eq.
  unfold bind at 1, place, spec.place_raises.
  destruct (resolve_result block cache) as [[|v vs]|]; try reflexivity.
  destruct (transform_vertices_raises radians (v :: vs) (rotation insert_entity));
    reflexivity.
Qed.

Lemma for_each_cons (extract : Insert -> M (list ExtractedEntity))
    (x : Entity) (xs : list Entity) (entities : list ExtractedEntity)
    (cache : GeometryCache) :
  for_each (extend_with_insert extract) (x :: xs) entities cache
  = match x with
    | INSERT i =>
        match extract i cache with
        | inl e => inl e
        | inr (extracted, cache1) =>
            for_each (extend_with_insert extract) xs (entities ++ extracted) cache1
        end
    | _ => for_each (extend_with_insert extract) xs entities cache
    end.
Proof.
  cbn [for_each]. unfold bind at 1.
  destruct x as [i| | | |]; try reflexivity.
  cbn [extend_with_insert]. unfold bind.
  destruct (extract i cache) as [e|[extracted cache1]]; reflexivity.
Qed.

(** The loop appends to what it starts from. *)
Lemma for_each_extend (extract : Insert -> M (list ExtractedEntity))
    (xs : list Entity) :
  forall (entities : list ExtractedEntity) (cache : GeometryCache),
    for_each (extend_with_insert extract) xs entities cache
    = match for_each (extend_with_insert extract) xs [] cache with
      | inl e => inl e
      | inr (extracted, cache') => inr (entities ++ extracted, cache')
      end.
Proof.
  induction xs as [|x xs IH]; intros entities cache.
  - cbn. unfold ret. now rewrite app_nil_r.
  - rewrite !for_each_cons.
    destruct x as [i| | | |]; try apply IH.
    destruct (extract i cache) as [e|[extracted cache1]]; [reflexivity|].
    cbn [app].
    rewrite (IH (entities ++ extracted)), (IH extracted).
    destruct (for_each (extend_with_insert extract) xs [] cache1)
      as [e|[rest cache2]]; [reflexivity|].
    now rewrite app_assoc.
Qed.

(** The loop is the visit of the nested instances in order. *)
Lemma for_each_visit (extract : Insert -> M (list ExtractedEntity))
    (xs : list Entity) :
  forall cache,
    for_each (extend_with_insert extract) xs [] cache
    = spec.visit_nested extract xs cache.
Proof.
  induction xs as [|x xs IH]; intros cache; [reflexivity|].
  rewrite for_each_cons.
  destruct x as [i| | | |]; cbn [spec.visit_nested]; try apply IH.
  destruct (extract i cache) as [e|[found cache1]]; [reflexivity|].
  cbn [app]. rewrite for_each_extend, IH. reflexivity.
Qed.

(** What a visit returns holds the entities of every INSERT visited. *)
Lemma visit_nested_visits
    (visit : Insert -> GeometryCache -> Exn + (list ExtractedEntity * GeometryCache))
    (pre : list Entity) (j : Insert) (post : list Entity) :
  forall cache es cache',
    spec.visit_nested visit (pre ++ INSERT j :: post) cache = inr (es, cache') ->
    exists before found after c c1,
      visit j c = inr (found, c1) /\ es = before ++ found ++ after.
Proof.
  induction pre as [|x pre IH]; intros cache es cache'.
  - cbn [app spec.visit_nested].
    destruct (visit j cache) as [e|[found c1]] eqn:Ej; [discriminate|].
    destruct (spec.visit_nested visit post c1) as [e|[more c2]]; [discriminate|].
    intros [= <- <-]. exists [], found, more, cache, c1. split; [exact Ej|reflexivity].
  - rewrite <- app_comm_cons.
    destruct x as [i| | | |]; cbn [spec.visit_nested]; try apply IH.
    destruct (visit i cache) as [e|[first c1]]; [discriminate|].
    destruct (spec.visit_nested visit (pre ++ INSERT j :: post) c1)
      as [e|[more c2]] eqn:Erest; [discriminate|].
    intros [= <- <-].
    destruct (IH _ _ _ Erest) as (before & found & after & c & c' & Ej & ->).
    exists (first ++ before), found, after, c, c'.
    split; [exact Ej|]. now rewrite <- app_assoc.
Qed.

(** A property of the extracted entities and the memo table that each
    extracted INSERT establishes is established by the loop. *)
Lemma for_each_extend_sound (extract : Insert -> M (list ExtractedEntity))
    (Q : GeometryCache -> ExtractedEntity -> Prop) (xs : list Entity) :
  (forall c c' e, c ⊆ c' -> Q c e -> Q c' e) ->
  (forall i c es c', In (INSERT i) xs -> extract i c = inr (es, c') ->
                     c ⊆ c' /\ Forall (Q c') es) ->
  forall cache es cache',
    for_each (extend_with_insert extract) xs [] cache = inr (es, cache') ->
    cache ⊆ cache' /\ Forall (Q cache') es.
Proof.
  intros Hmono. induction xs as [|x xs IH]; intros Hext cache es cache'.
  - cbn. unfold ret. intros [= <- <-]. split; [reflexivity|constructor].
  - assert (Hrest : forall i c es c', In (INSERT i) xs -> extract i c = inr (es, c') ->
                                      c ⊆ c' /\ Forall (Q c') es).
    { intros i c es0 c' Hin. apply Hext. now right. }
    rewrite for_each_cons.
    destruct x as [i| | | |]; try (apply IH; exact Hrest).
    destruct (extract i cache) as [e|[extracted cache1]] eqn:Ei; [discriminate|].
    cbn [app]. rewrite for_each_extend.
    destruct (for_each (extend_with_insert extract) xs [] cache1)
      as [e|[rest cache2]] eqn:Erest; [discriminate|].
    intros [= <- <-].
    destruct (Hext i cache extracted cache1 (or_introl eq_refl) Ei) as [Hsub1 Hq1].
    destruct (IH Hrest cache1 rest cache2 Erest) as [Hsub2 Hq2].
    split; [etransitivity; eassumption|].
    apply Forall_app. split; [|exact Hq2].
    eapply Forall_impl; [exact Hq1|]. intros e. now apply Hmono.
Qed.

Lemma for_each_extend_total (extract : Insert -> M (list ExtractedEntity))
    (xs : list Entity) :
  (forall i cache, In (INSERT i) xs -> exists es cache', extract i cache = inr (es, cache')) ->
  forall entities cache,
    exists es cache',
      for_each (extend_with_insert extract) xs entities cache = inr (es, cache').
Proof.
  induction xs as [|x xs IH]; intros Hext entities cache.
  - cbn. unfold ret. eauto.
  - assert (Hrest : forall i cache, In (INSERT i) xs ->
                                    exists es cache', extract i cache = inr (es, cache')).
    { intros i c Hin. apply Hext. now right. }
    rewrite for_each_cons.
    destruct x as [i| | | |]; try (apply IH; exact Hrest).
    destruct (Hext i cache (or_introl eq_refl)) as (es & cache1 & ->).
    apply IH. exact Hrest.
Qed.

(** An exception of the loop is an exception of an extracted INSERT. *)
Lemma for_each_extend_error (extract : Insert -> M (list ExtractedEntity))
    (P : Exn -> Prop) (xs : list Entity) :
  (forall i cache e, In (INSERT i) xs -> extract i cache = inl e -> P e) ->
  forall entities cache e,
    for_each (extend_with_insert extract) xs entities cache = inl e -> P e.
Proof.
  induction xs as [|x xs IH]; intros Hext entities cache e.
  - cbn. unfold ret. discriminate.
  - assert (Hrest : forall i cache e, In (INSERT i) xs -> extract i cache = inl e -> P e).
    { intros i c e0 Hin. apply Hext. now right. }
    rewrite for_each_cons.
    destruct x as [i| | | |]; try (apply IH; exact Hrest).
    destruct (extract i cache) as [e0|[extracted cache1]] eqn:Ei.
    + intros [= <-]. eapply Hext; [now left|exact Ei].
    + apply IH. exact Hrest.
Qed.

(** With finite rotation angles, extraction returns. *)
Lemma extract_total_fuel (n : nat) :
  (forall k b, blocks doc !! k = Some b ->
               spec.finite_rotations_in radians (block_entities b)) ->
  forall insert_entity depth max_depth parent_transform cache,
    (Z.to_nat (max_depth + 1 - depth) <= n)%nat ->
    spec.finite_rotation radians insert_entity ->
    exists es cache',
      _extract_from_insert insert_entity depth max_depth parent_transform cache
      = inr (es, cache').
Proof.
  intros Hdoc. induction n as [|n IH]; intros i d m pt cache Hn Hi;
    rewrite extract_unfold.
  - destruct (Z_gt_dec d m); [eauto|lia].
  - destruct (Z_gt_dec d m); [eauto|].
    destruct (blocks doc !! name i) as [block|] eqn:Hblock; [|eauto].
    rewrite (finite_rotation_places i _ Hi).
    apply for_each_extend_total. intros c cache1 Hin.
    apply IH; [lia|]. eapply Hdoc; eassumption.
Qed.

Lemma extract_total insert_entity depth max_depth parent_transform cache :
  (forall k b, blocks doc !! k = Some b ->
               spec.finite_rotations_in radians (block_entities b)) ->
  spec.finite_rotation radians insert_entity ->
  exists es cache',
    _extract_from_insert insert_entity depth max_depth parent_transform cache
    = inr (es, cache').
Proof. intros Hdoc. eapply extract_total_fuel; [exact Hdoc|reflexivity]. Qed.

Lemma extract_all_total (max_depth : Z) (cache : GeometryCache) :
  spec.finite_rotations radians doc ->
  exists es cache', extract_all_blocks max_depth cache = inr (es, cache').
Proof.
  intros [Hspace Hdoc]. unfold block_extractor.extract_all_blocks.
  apply for_each_extend_total. intros i c Hin.
  apply extract_total; [exact Hdoc|]. now apply Hspace.
Qed.

(** No exception but the ValueError of the math calls leaves extraction. *)
Lemma extract_error_fuel (n : nat) :
  forall i d m pt cache e,
    (Z.to_nat (m + 1 - d) <= n)%nat ->
    _extract_from_insert i d m pt cache = inl e ->
    e = ValueError "math domain error".
Proof.
  induction n as [|n IH]; intros i d m pt cache e Hn; rewrite extract_unfold.
  - destruct (Z_gt_dec d m); [discriminate|lia].
  - destruct (Z_gt_dec d m); [discriminate|].
    destruct (blocks doc !! name i) as [block|]; [|discriminate].
    destruct (spec.place_raises radians i (resolve_result block cache)).
    + intros [= Heq]. symmetry. exact Heq.
    + apply (for_each_extend_error _ (fun e => e = ValueError "math domain error")).
      intros c cache1 e1 _. apply IH. lia.
Qed.

Lemma extract_error i d m pt cache e :
  _extract_from_insert i d m pt cache = inl e -> e = ValueError "math domain error".
Proof. eapply extract_error_fuel. reflexivity. Qed.

(** *** Where the extracted entities come from *)

Local Abbreviation placed_below := (spec.placed_below radians cos sin doc).

Lemma placed_below_weaken i d m (c c' : GeometryCache) e :
  c ⊆ c' -> placed_below i d m c e -> placed_below i d m c' e.
Proof.
  intros Hsub (i' & d' & b & g & Hn & Hd & Hb & Hc & He).
  exists i', d', b, g. repeat split; try assumption; try lia.
  eapply lookup_weaken; eassumption.
Qed.

Lemma placed_below_parent i d m b c (cache : GeometryCache) e :
  blocks doc !! name i = Some b ->
  In (INSERT c) (block_entities b) ->
  placed_below c (d + 1) m cache e ->
  placed_below i d m cache e
  /\ exists i' d' b' g,
       spec.nested_at doc i d i' d' /\ (d < d' <= m)%Z
       /\ blocks doc !! name i' = Some b'
       /\ cache !! block_name_of b' = Some g
       /\ e = placed_entity i' g.
Proof.
  intros Hb Hin (i' & d' & b' & g & Hn & Hd & Hb' & Hc & He).
  assert (Hn' : spec.nested_at doc i d i' d')
    by (eapply spec.nested_below; eassumption).
  split; exists i', d', b', g; repeat split; try assumption; lia.
Qed.

Lemma extract_sound_fuel (n : nat) :
  forall i d m pt cache es cache',
    (Z.to_nat (m + 1 - d) <= n)%nat ->
    _extract_from_insert i d m pt cache = inr (es, cache') ->
    cache ⊆ cache' /\ Forall (placed_below i d m cache') es.
Proof.
  induction n as [|n IH]; intros i d m pt cache es cache' Hn;
    rewrite extract_unfold.
  - destruct (Z_gt_dec d m); [|lia].
    intros [= <- <-]. split; [reflexivity|constructor].
  - destruct (Z_gt_dec d m) as [|Hle].
    { intros [= <- <-]. split; [reflexivity|constructor]. }
    destruct (blocks doc !! name i) as [block|] eqn:Hblock.
    2:{ intros [= <- <-]. split; [reflexivity|constructor]. }
    destruct (spec.place_raises radians i (resolve_result block cache));
      [discriminate|].
    rewrite for_each_extend.
    destruct (for_each _ (block_entities block) [] (resolve_cache block cache))
      as [e|[children cache2]] eqn:Echildren; [discriminate|].
    intros [= <- <-].
    assert (Hnested : forall c c0 es0 c0',
               In (INSERT c) (block_entities block) ->
               _extract_from_insert c (d + 1) m None c0 = inr (es0, c0') ->
               c0 ⊆ c0' /\ Forall (placed_below i d m c0') es0).
    { intros c c0 es0 c0' Hin Hc.
      destruct (IH c (d + 1)%Z m None c0 es0 c0' ltac:(lia) Hc) as [Hs Hq].
      split; [exact Hs|].
      eapply Forall_impl; [exact Hq|]. intros e He.
      eapply placed_below_parent; eassumption. }
    destruct (for_each_extend_sound _ (placed_below i d m) (block_entities block)
                (placed_below_weaken i d m) Hnested _ _ _ Echildren)
      as [Hsub Hchildren].
    split.
    + etransitivity; [apply resolve_cache_extends|exact Hsub].
    + apply Forall_app. split; [|exact Hchildren].
      unfold block_extractor.own_entities.
      destruct (resolve_result block cache) as [[|v vs]|] eqn:Hres;
        try constructor; [|constructor].
      exists i, d, block, (v :: vs).
      repeat split; try assumption; try lia; [apply spec.nested_here|].
      eapply lookup_weaken; [|exact Hsub].
      now apply resolve_result_memoized.
Qed.

Lemma extract_sound i d m pt cache es cache' :
  _extract_from_insert i d m pt cache = inr (es, cache') ->
  cache ⊆ cache' /\ Forall (placed_below i d m cache') es.
Proof. eapply extract_sound_fuel. reflexivity. Qed.

(** The entities of the INSERTs nested in a block are placements of
    INSERTs met below the parent, each by its own insertion point,
    rotation and scale. *)
Lemma nested_children_placed (parent : Insert) (depth max_depth : Z) (block : Block)
    (cache0 : GeometryCache) (children : list ExtractedEntity)
    (cache' : GeometryCache) :
  blocks doc !! name parent = Some block ->
  for_each
    (extend_with_insert
       (fun nested => _extract_from_insert nested (depth + 1) max_depth None))
    (block_entities block) [] cache0 = inr (children, cache') ->
  Forall
    (fun e =>
       exists i d b g,
         spec.nested_at doc parent depth i d /\ (depth < d <= max_depth)%Z
         /\ blocks doc !! name i = Some b
         /\ cache' !! block_name_of b = Some g
         /\ e = placed_entity i g
         /\ vertices e
            = transform_vertices radians cos sin g (insert i) (rotation i)
                (default 1.0 (xscale i)) (default 1.0 (yscale i)))
    children.
Proof.
  intros Hblock Echildren.
  refine (proj2 (for_each_extend_sound _
            (fun c e => exists i d b g,
               spec.nested_at doc parent depth i d /\ (depth < d <= max_depth)%Z
               /\ blocks doc !! name i = Some b
               /\ c !! block_name_of b = Some g
               /\ e = placed_entity i g
               /\ vertices e
                  = transform_vertices radians cos sin g (insert i) (rotation i)
                      (default 1.0 (xscale i)) (default 1.0 (yscale i)))
            (block_entities block) _ _ _ _ _ Echildren)).
  - intros c c' e Hsub (i & d & b & g & Hn & Hd & Hb & Hc & He & Hv).
    exists i, d, b, g. repeat split; try assumption; try lia.
    eapply lookup_weaken; eassumption.
  - intros c c0 es0 c0' Hin Hc.
    destruct (extract_sound _ _ _ _ _ _ _ Hc) as [Hs Hq].
    split; [exact Hs|].
    eapply Forall_impl; [exact Hq|]. intros e He.
    destruct (placed_below_parent parent depth max_depth block c c0' e Hblock Hin He)
      as [_ (i & d & b & g & Hn & Hd & Hb & Hg & ->)].
    exists i, d, b, g. repeat split; try assumption; lia.
Qed.

(** The entities of the modelspace's INSERTs are placements of INSERTs
    reached at a depth between 0 and [max_depth]. *)
Lemma extract_all_reached (max_depth : Z) (cache : GeometryCache)
    (es : list ExtractedEntity) (cache' : GeometryCache) :
  extract_all_blocks max_depth cache = inr (es, cache') ->
  Forall
    (fun e =>
       exists i d b g,
         spec.reached doc i d /\ (0 <= d <= max_depth)%Z
         /\ blocks doc !! name i = Some b
         /\ cache' !! block_name_of b = Some g
         /\ e = placed_entity i g)
    es.
Proof.
  intros Eall. unfold block_extractor.extract_all_blocks in Eall.
  refine (proj2 (for_each_extend_sound _
            (fun c e => exists i d b g,
               spec.reached doc i d /\ (0 <= d <= max_depth)%Z
               /\ blocks doc !! name i = Some b
               /\ c !! block_name_of b = Some g
               /\ e = placed_entity i g)
            (modelspace doc) _ _ _ _ _ Eall)).
  - intros c c' e Hsub (i & d & b & g & Hr & Hd & Hb & Hc & He).
    exists i, d, b, g. repeat split; try assumption; try lia.
    eapply lookup_weaken; eassumption.
  - intros top c es0 c' Hin Hc.
    destruct (extract_sound _ _ _ _ _ _ _ Hc) as [Hs Hq].
    split; [exact Hs|].
    eapply Forall_impl; [exact Hq|].
    intros e (i & d & b & g & Hn & Hd & Hb & Hg & He).
    exists i, d, b, g. repeat split; try assumption; try lia.
    exists top. split; assumption.
Qed.

(** *** Claims on the extractor *)

(** C5. The entities extracted below an INSERT do not depend on its
    placement: two INSERTs of the same block, whatever their insertion
    point, rotation, scale and parent transform, yield the same entities
    after their own one and leave the same memo table.  Each of those
    entities is the placement of a nested INSERT by its own insertion
    point, rotation and scale, applied to the memoized geometry of its own
    block.  Both extractions return when no rotation angle is infinite;
    and whenever both return, for any drawing, they agree in this way. *)
Theorem nested_entities_ignore_parent_placement
    (parent parent' : Insert) (depth max_depth : Z)
    (parent_transform parent_transform' : option Matrix44)
    (cache : GeometryCache) :
  name parent' = name parent ->
  (spec.finite_rotations radians doc ->
   spec.finite_rotation radians parent ->
   spec.finite_rotation radians parent' ->
   exists geometry children cache',
     _extract_from_insert parent depth max_depth parent_transform cache
     = inr (own_entities parent geometry ++ children, cache')
     /\ _extract_from_insert parent' depth max_depth parent_transform' cache
        = inr (own_entities parent' geometry ++ children, cache')
     /\ Forall
          (fun e =>
             exists i d b g,
               spec.nested_at doc parent depth i d /\ (depth < d <= max_depth)%Z
               /\ blocks doc !! name i = Some b
               /\ cache' !! block_name_of b = Some g
               /\ e = placed_entity i g
               /\ vertices e
                  = transform_vertices radians cos sin g (insert i) (rotation i)
                      (default 1.0 (xscale i)) (default 1.0 (yscale i)))
          children)
  /\ (forall es cache1 es' cache1',
        _extract_from_insert parent depth max_depth parent_transform cache
        = inr (es, cache1) ->
        _extract_from_insert parent' depth max_depth parent_transform' cache
        = inr (es', cache1') ->
        exists geometry children,
          es = own_entities parent geometry ++ children
          /\ es' = own_entities parent' geometry ++ children
          /\ cache1' = cache1
          /\ Forall
               (fun e =>
                  exists i d b g,
                    spec.nested_at doc parent depth i d /\ (depth < d <= max_depth)%Z
                    /\ blocks doc !! name i = Some b
                    /\ cache1 !! block_name_of b = Some g
                    /\ e = placed_entity i g
                    /\ vertices e
                       = transform_vertices radians cos sin g (insert i) (rotation i)
                           (default 1.0 (xscale i)) (default 1.0 (yscale i)))
               children).
Proof.
  intros Hname. split.
  - intros [_ Hdoc] Hparent Hparent'. rewrite !extract_unfold, Hname.
    destruct (Z_gt_dec depth max_depth) as [|Hle].
    { exists None, [], cache. repeat split; constructor. }
    destruct (blocks doc !! name parent) as [block|] eqn:Hblock.
    2:{ exists None, [], cache. repeat split; constructor. }
    rewrite (finite_rotation_places parent _ Hparent),
      (finite_rotation_places parent' _ Hparent').
    rewrite (for_each_extend _ _ (own_entities parent _)),
      (for_each_extend _ _ (own_entities parent' _)).
    destruct (for_each_extend_total
                (fun nested => _extract_from_insert nested (depth + 1) max_depth None)
                (block_entities block)
                (fun i c Hin =>
                   extract_total i (depth + 1)%Z max_depth None c Hdoc
                     (Hdoc _ _ Hblock i Hin))
                [] (resolve_cache block cache))
      as (children & cache' & Echildren).
    rewrite Echildren.
    exists (resolve_result block cache), children, cache'.
    split; [reflexivity|]. split; [reflexivity|].
    eapply nested_children_placed; eassumption.
  - intros es cache1 es' cache1'. rewrite !extract_unfold, Hname.
    destruct (Z_gt_dec depth max_depth) as [|Hle].
    { intros [= <- <-] [= <- <-]. exists None, []. repeat split; constructor. }
    destruct (blocks doc !! name parent) as [block|] eqn:Hblock.
    2:{ intros [= <- <-] [= <- <-]. exists None, []. repeat split; constructor. }
    destruct (spec.place_raises radians parent (resolve_result block cache));
      [discriminate|].
    destruct (spec.place_raises radians parent' (resolve_result block cache));
      [intros _; discriminate|].
    rewrite (for_each_extend _ _ (own_entities parent _)),
      (for_each_extend _ _ (own_entities parent' _)).
    destruct (for_each _ (block_entities block) [] (resolve_cache block cache))
      as [e|[children cache']] eqn:Echildren; [discriminate|].
    intros [= <- <-] [= <- <-].
    exists (resolve_result block cache), children.
    split; [reflexivity|]. split; [reflexivity|]. split; [reflexivity|].
    eapply nested_children_placed; eassumption.
Qed.

(** C6. Extraction ends for every drawing, memo table and [max_depth],
    cyclic block graphs included: it returns when no rotation angle is
    infinite; a node reached deeper than [max_depth] yields nothing,
    without raising; and every entity extraction returns is the placement
    of an INSERT reached at a depth between 0 and [max_depth].  So a chain
    of 16 nested blocks with [max_depth] 10 yields the entities of depths 0
    to 10, and a block placing itself yields 11 entities, their rotation
    angle being 0. *)
Theorem extraction_depth_bound (max_depth : Z) (cache : GeometryCache) :
  (spec.finite_rotations radians doc ->
   exists es cache',
     extract_all_blocks max_depth cache = inr (es, cache')
     /\ Forall
          (fun e =>
             exists i d b g,
               spec.reached doc i d /\ (0 <= d <= max_depth)%Z
               /\ blocks doc !! name i = Some b
               /\ cache' !! block_name_of b = Some g
               /\ e = placed_entity i g)
          es)
  /\ (forall es cache',
        extract_all_blocks max_depth cache = inr (es, cache') ->
        Forall
          (fun e =>
             exists i d b g,
               spec.reached doc i d /\ (0 <= d <= max_depth)%Z
               /\ blocks doc !! name i = Some b
               /\ cache' !! block_name_of b = Some g
               /\ e = placed_entity i g)
          es)
  /\ (forall i depth parent_transform c,
        (depth > max_depth)%Z ->
        _extract_from_insert i depth max_depth parent_transform c = inr ([], c))
  /\ (math_domain_error (radians 0) = false ->
      exists es cache',
        block_extractor.extract_all_blocks radians cos sin Matrix44
          (spec.chain_doc 15) 10 ∅ = inr (es, cache')
        /\ map block_name es = map spec.chain_name (seq 0 11))
  /\ (math_domain_error (radians 0) = false ->
      exists es cache',
        block_extractor.extract_all_blocks radians cos sin Matrix44
          spec.self_doc 10 ∅ = inr (es, cache')
        /\ length es = 11%nat).
Proof.
  split; [|split; [|split; [|split]]].
  - intros Hfinite.
    destruct (extract_all_total max_depth cache Hfinite) as (es & cache' & Eall).
    exists es, cache'. split; [exact Eall|].
    eapply extract_all_reached. exact Eall.
  - intros es cache'. apply extract_all_reached.
  - intros i depth pt c Hgt. rewrite extract_unfold.
    destruct (Z_gt_dec depth max_depth); [reflexivity|lia].
  - intros Hzero. vm_compute in Hzero. eexists _, _.
    split; [vm_compute; rewrite !Hzero; reflexivity|vm_compute; reflexivity].
  - intros Hzero. vm_compute in Hzero. eexists _, _.
    split; [vm_compute; rewrite !Hzero; reflexivity|vm_compute; reflexivity].
Qed.

(** C7, as the code has it. Resolving a block twice returns the same
    polygon.  A polygon that is returned is in the memo table from then on:
    whatever is resolved in between, the name returns it without a scan,
    that is whatever primitives the block then holds.  An absent result is
    not memoized: the table is unchanged and the next call scans again. *)
Theorem resolver_memoization (block : Block) (cache : GeometryCache) :
  let first := resolve_result block cache in
  let cache1 := resolve_cache block cache in
  _extract_block_geometry block cache = inr (first, cache1)
  /\ _extract_block_geometry block cache1 = inr (first, cache1)
  /\ (forall g, first = Some g ->
        cache1 !! block_name_of block = Some g
        /\ forall cache2 block',
             cache1 ⊆ cache2 ->
             block_name_of block' = block_name_of block ->
             _extract_block_geometry block' cache2 = inr (Some g, cache2))
  /\ (first = None ->
        cache1 = cache
        /\ cache1 !! block_name_of block = None
        /\ forall block',
             block_name_of block' = block_name_of block ->
             _extract_block_geometry block' cache1
             = inr (scan_block block',
                    match scan_block block' with
                    | Some g => <[block_name_of block := g]> cache1
                    | None => cache1
                    end)).
Proof.
  assert (Hlen : forall b vs, scan_block b = Some vs -> (3 <= length vs)%nat).
  { intros b. apply scan_block_keeps. auto. }
  assert (Hhit : forall g cache2 block',
             cache2 !! block_name_of block = Some g ->
             block_name_of block' = block_name_of block ->
             _extract_block_geometry block' cache2 = inr (Some g, cache2)).
  { intros g cache2 block' Hg Hname.
    unfold block_extractor._extract_block_geometry. now rewrite Hname, Hg. }
  cbv zeta. rewrite extract_block_geometry_eq.
  unfold spec.resolve_result, spec.resolve_cache.
  destruct (cache !! block_name_of block) as [cached|] eqn:E.
  - split; [reflexivity|]. split; [now apply Hhit|]. split; [|discriminate].
    intros g [= <-]. split; [exact E|].
    intros cache2 block' Hsub Hname. apply Hhit; [|exact Hname].
    eapply lookup_weaken; eassumption.
  - destruct (scan_block block) as [[|v vs]|] eqn:Es.
    + specialize (Hlen block [] Es). simpl in Hlen. lia.
    + split; [reflexivity|]. split; [|split; [|discriminate]].
      * apply Hhit; [apply lookup_insert_eq|reflexivity].
      * intros g [= <-]. split; [apply lookup_insert_eq|].
        intros cache2 block' Hsub Hname. apply Hhit; [|exact Hname].
        eapply lookup_weaken; [apply lookup_insert_eq|exact Hsub].
    + split; [reflexivity|]. split; [|split; [discriminate|]].
      * unfold block_extractor._extract_block_geometry. now rewrite E, Es.
      * intros _. split; [reflexivity|]. split; [exact E|].
        intros block' Hname.
        unfold block_extractor._extract_block_geometry. rewrite Hname, E.
        destruct (scan_block block') as [[|v vs]|] eqn:Es'; try reflexivity.
        specialize (Hlen block' [] Es'). simpl in Hlen. lia.
Qed.

(** C9, as the code has it. Extraction absorbs a missing block and an
    absent geometry, and raises for an infinite rotation angle.  When no
    INSERT of the drawing has an infinite rotation angle it returns; the
    one exception that ever leaves it is the ValueError of the math calls,
    never a KeyError.  An INSERT of a block missing from the drawing yields
    nothing and leaves the memo table alone.  An INSERT whose block
    resolves to no polygon yields no entity of its own: what it returns is
    the visit of its nested INSERTs, so the entities of every one of them
    are in it.  A block without a primitive of three vertices or more
    resolves to none.  An INSERT with an infinite rotation angle whose
    block resolves to a polygon raises. *)
Theorem extraction_total (max_depth : Z) (cache : GeometryCache) :
  (spec.finite_rotations radians doc ->
   exists es cache', extract_all_blocks max_depth cache = inr (es, cache'))
  /\ (forall e, extract_all_blocks max_depth cache = inl e ->
                e = ValueError "math domain error")
  /\ (forall i depth parent_transform c,
        blocks doc !! name i = None ->
        _extract_from_insert i depth max_depth parent_transform c = inr ([], c))
  /\ (forall i depth parent_transform c block c1,
        (depth <= max_depth)%Z ->
        blocks doc !! name i = Some block ->
        _extract_block_geometry block c = inr (None, c1) ->
        _extract_from_insert i depth max_depth parent_transform c
        = spec.visit_nested
            (fun nested => _extract_from_insert nested (depth + 1) max_depth None)
            (block_entities block) c1
        /\ forall pre nested post es c',
             block_entities block = pre ++ INSERT nested :: post ->
             _extract_from_insert i depth max_depth parent_transform c = inr (es, c') ->
             exists before found after c2 c3,
               _extract_from_insert nested (depth + 1) max_depth None c2
               = inr (found, c3)
               /\ es = before ++ found ++ after)
  /\ (forall block c,
        c !! block_name_of block = None ->
        (forall entity vs,
           In entity (block_entities block) ->
           entity_vertices cos sin entity = Some vs -> (length vs < 3)%nat) ->
        _extract_block_geometry block c = inr (None, c))
  /\ (forall i depth parent_transform c block v vs c1,
        (depth <= max_depth)%Z ->
        blocks doc !! name i = Some block ->
        _extract_block_geometry block c = inr (Some (v :: vs), c1) ->
        math_domain_error (radians (rotation i)) = true ->
        _extract_from_insert i depth max_depth parent_transform c
        = inl (ValueError "math domain error")).
Proof.
  split; [apply extract_all_total|].
  split; [|split; [|split; [|split]]].
  - intros e. unfold block_extractor.extract_all_blocks.
    apply (for_each_extend_error _ (fun e => e = ValueError "math domain error")).
    intros i c e0 _. apply extract_error.
  - intros i depth pt c Hmissing. rewrite extract_unfold, Hmissing.
    destruct (Z_gt_dec depth max_depth); reflexivity.
  - intros i depth pt c block c1 Hle Hblock Hgeo.
    assert (Hvisit :
      _extract_from_insert i depth max_depth pt c
      = spec.visit_nested
          (fun nested => _extract_from_insert nested (depth + 1) max_depth None)
          (block_entities block) c1).
    { rewrite extract_unfold, Hblock.
      destruct (Z_gt_dec depth max_depth); [lia|].
      rewrite extract_block_geometry_eq in Hgeo.
      injection Hgeo as Hres Hcache. rewrite Hres, Hcache.
      apply for_each_visit. }
    split; [exact Hvisit|].
    intros pre nested post es c' Hentities. rewrite Hvisit, Hentities.
    apply visit_nested_visits.
  - intros block c Hc Hsmall.
    rewrite extract_block_geometry_eq.
    unfold spec.resolve_result, spec.resolve_cache. rewrite Hc.
    destruct (scan_block block) as [vs|] eqn:Es; [|reflexivity].
    exfalso. revert vs Es. apply scan_block_keeps.
    intros entity vs Hin Hv Hlen. specialize (Hsmall entity vs Hin Hv). lia.
  - intros i depth pt c block v vs c1 Hle Hblock Hgeo Hinf.
    rewrite extract_unfold, Hblock.
    destruct (Z_gt_dec depth max_depth); [lia|].
    rewrite extract_block_geometry_eq in Hgeo.
    injection Hgeo as Hres Hcache. rewrite Hres.
    unfold spec.place_raises, transform_vertices_raises. now rewrite Hinf.
Qed.

End Extractor.

End extractor_properties.

(** * Worked instances *)
Module examples.

Import rule_based_classifier geometry_processor block_extractor.

Local Abbreviation classify := (classify spec.find_sub spec.percent).
Local Abbreviation _classify_by_rules := (_classify_by_rules spec.find_sub spec.percent).
Local Abbreviation _match_geometry := rule_based_classifier._match_geometry.

Lemma classify_threshold_witness :
  cache_probe spec.without_cache spec.parking_lot = None
  /\ (snd (scan spec.find_sub spec.percent spec.parking_lot spec.lot_context (rules spec.without_cache))
      >? 0.5) = true
  /\ confidence (fst (classify spec.without_cache spec.parking_lot (Some spec.lot_context) ""))
     = snd (scan spec.find_sub spec.percent spec.parking_lot spec.lot_context (rules spec.without_cache))
  /\ method (fst (classify spec.without_cache spec.parking_lot (Some spec.lot_context) "")) = "rule-based".
Proof.
  assert (Hbest : (snd (scan spec.find_sub spec.percent spec.parking_lot spec.lot_context
                          (rules spec.without_cache)) >? 0.5) = true)
    by (vm_compute; reflexivity).
  split; [reflexivity|]. split; [exact Hbest|].
  destruct (proj1 (proj2 (classifier_properties.classify_threshold
                            spec.find_sub spec.percent
                            spec.without_cache spec.parking_lot (Some spec.lot_context) "" eq_refl))
              Hbest)
    as (r & _ & _ & _ & _ & _ & _ & Hconf & Hmethod).
  split; [exact Hconf|exact Hmethod].
Defined.

Example classify_parking_lot :
  let result := fst (classify spec.without_cache spec.parking_lot (Some spec.lot_context) "") in
  category result = "parking" /\ type result = "basic"
  /\ confidence result = 0.90 * 1.0 * 1.0
  /\ reasoning result = "키워드 매칭: 100%".
Proof. vm_compute. repeat split. Qed.

(** The fire door of the drawing set: matched through its last path
    segment, with an area inside the rule's wide range. *)
Example classify_fire_door :
  let result :=
    fst (classify spec.without_cache "지하1층$0$FSD-1100"
           (Some {| rule_based_classifier.area := Some 5.0; vertex_count := None |}) "") in
  category result = "circulation" /\ type result = "exit"
  /\ confidence result = 0.95 * 1.0 * 1.0.
Proof. vm_compute. repeat split. Qed.

Lemma scan_tie_break_witness :
  cache_probe spec.two_rules "PARK_LARGE" = None
  /\ spec.eligible spec.find_sub "PARK_LARGE" spec.rule_first = true
  /\ spec.eligible spec.find_sub "PARK_LARGE" spec.rule_second = true
  /\ final_confidence spec.find_sub "PARK_LARGE" empty_context spec.rule_second
     = final_confidence spec.find_sub "PARK_LARGE" empty_context spec.rule_first
  /\ r_type spec.rule_second <> r_type spec.rule_first
  /\ category (fst (classify spec.two_rules "PARK_LARGE" (Some empty_context) ""))
     = "parking"
  /\ type (fst (classify spec.two_rules "PARK_LARGE" (Some empty_context) ""))
     = "basic"
  /\ confidence (fst (classify spec.two_rules "PARK_LARGE" (Some empty_context) ""))
     = final_confidence spec.find_sub "PARK_LARGE" empty_context spec.rule_first.
Proof.
  split; [reflexivity|]. split; [reflexivity|]. split; [reflexivity|].
  split; [reflexivity|]. split; [discriminate|].
  destruct (proj2 (proj2 (proj2 (proj2 (proj2
              (classifier_properties.scan_tie_break spec.find_sub spec.percent
                 "PARK_LARGE" empty_context)))))
              spec.two_rules "" [] spec.rule_first [] spec.rule_second [])
    as (Hcategory & Htype & Hconfidence & _).
  - reflexivity.
  - reflexivity.
  - reflexivity.
  - reflexivity.
  - vm_compute. reflexivity.
  - intros r' [].
  - intros r' [].
  - split; [exact Hcategory|]. split; [exact Htype|exact Hconfidence].
Defined.

(** Read with every supplied value counting, C3 fails on an area of 0.0:
    far below the range, yet the score is 1.0 and not 0.3. *)
Lemma match_geometry_zero_area_counterexample :
  In spec.ramp_rule _build_rules
  /\ _match_geometry spec.zero_area spec.ramp_rule = 1.0
  /\ spec.area_factor (area_range spec.ramp_rule) (rule_based_classifier.area spec.zero_area)
     * spec.vertex_factor (vertex_range spec.ramp_rule) (vertex_count spec.zero_area)
     = 0.3
  /\ _match_geometry spec.zero_area spec.ramp_rule
     <> spec.area_factor (area_range spec.ramp_rule) (rule_based_classifier.area spec.zero_area)
        * spec.vertex_factor (vertex_range spec.ramp_rule) (vertex_count spec.zero_area).
Proof.
  split; [do 13 right; left; reflexivity|].
  split; [reflexivity|]. split; [reflexivity|].
  intros H. apply (f_equal (fun x => x <? 0.5)) in H.
  vm_compute in H. discriminate.
Qed.

Lemma zero_context_value_is_absent_witness :
  area_range spec.ramp_rule = Some (10, 100)
  /\ (10 <=? 0.0) = false
  /\ (0.0 <? 10 * 0.5) = true
  /\ spec.area_factor (area_range spec.ramp_rule) (Some 0.0) = 0.3
  /\ _match_geometry spec.zero_area spec.ramp_rule = 1.0.
Proof.
  split; [reflexivity|]. split; [reflexivity|]. split; [reflexivity|].
  apply (proj2 (proj2 (proj2 (proj2 (proj2
           (classifier_properties.zero_context_value_is_absent
              spec.find_sub spec.percent spec.without_cache "" ""))))) spec.ramp_rule 10 100);
    reflexivity.
Defined.

Lemma classify_deterministic_witness :
  is_Some (active_cache spec.with_empty_cache)
  /\ method (fst (classify
                    (spec.with_rules
                       (spec.run_calls spec.find_sub spec.percent
                          [("RAMP", None, "t1")]
                          (snd (classify spec.with_empty_cache spec.parking_lot
                                  (Some spec.lot_context) "t0")))
                       _build_rules)
                    spec.parking_lot None "t2")) = "cached".
Proof.
  assert (Hactive : is_Some (active_cache spec.with_empty_cache)) by (eexists; reflexivity).
  split; [exact Hactive|].
  exact (proj1 (proj2 (classifier_properties.classify_deterministic
                         spec.find_sub spec.percent spec.with_empty_cache spec.parking_lot
                         (Some spec.lot_context) "t0" "t2" [("RAMP", None, "t1")])
                  Hactive None _build_rules)).
Defined.

(** ** Geometry and extraction *)

Local Abbreviation transform_vertices :=
  (transform_vertices spec.radians spec.cos_table spec.sin_table).
Local Abbreviation _extract_from_insert :=
  (_extract_from_insert spec.radians spec.cos_table spec.sin_table unit).
Local Abbreviation _extract_block_geometry :=
  (_extract_block_geometry spec.cos_table spec.sin_table).

Lemma transform_vertices_order_witness :
  spec.cos_table (spec.radians 90) = spec.cos_quarter_turn
  /\ spec.sin_table (spec.radians 90) = spec.sin_quarter_turn
  /\ transform_vertices spec.square10 (100, 100) 90 2 1
     = [(105, 90); (105, 110); (95, 110); (95, 90)].
Proof.
  split; [reflexivity|]. split; [reflexivity|].
  exact (proj1 (proj2 (extractor_properties.transform_vertices_order
                         spec.radians spec.cos_table spec.sin_table)
                  eq_refl eq_refl)).
Defined.

Lemma self_doc_finite : spec.finite_rotations spec.radians spec.self_doc.
Proof.
  split.
  - intros i [[= <-]|[]]. reflexivity.
  - intros k b Hk i Hin. unfold spec.self_doc in Hk. cbn [blocks] in Hk.
    apply lookup_insert_Some in Hk.
    destruct Hk as [[_ <-]|[_ Hk]]; [|rewrite lookup_empty in Hk; discriminate].
    simpl in Hin. destruct Hin as [Habs|[[= <-]|[]]]; [discriminate|reflexivity].
Qed.

Lemma hollow_doc_finite : spec.finite_rotations spec.radians spec.hollow_doc.
Proof.
  split.
  - intros i [[= <-]|[]]. reflexivity.
  - intros k b Hk i Hin. unfold spec.hollow_doc in Hk. cbn [blocks] in Hk.
    apply lookup_insert_Some in Hk.
    destruct Hk as [[_ <-]|[_ Hk]].
    + simpl in Hin. destruct Hin as [Habs|[[= <-]|[]]]; [discriminate|reflexivity].
    + apply lookup_insert_Some in Hk.
      destruct Hk as [[_ <-]|[_ Hk]]; [|rewrite lookup_empty in Hk; discriminate].
      simpl in Hin. destruct Hin as [Habs|[]]. discriminate.
Qed.

Lemma nested_entities_ignore_parent_placement_witness :
  name (spec.moved "A") = name (spec.at_origin "A")
  /\ spec.finite_rotations spec.radians spec.self_doc
  /\ spec.finite_rotation spec.radians (spec.at_origin "A")
  /\ spec.finite_rotation spec.radians (spec.moved "A")
  /\ exists geometry children cache',
       _extract_from_insert spec.self_doc (spec.at_origin "A") 0 2 None ∅
       = inr (own_entities spec.radians spec.cos_table spec.sin_table
                (spec.at_origin "A") geometry ++ children, cache')
       /\ _extract_from_insert spec.self_doc (spec.moved "A") 0 2 None ∅
          = inr (own_entities spec.radians spec.cos_table spec.sin_table
                   (spec.moved "A") geometry ++ children, cache').
Proof.
  split; [reflexivity|]. split; [exact self_doc_finite|].
  split; [reflexivity|]. split; [reflexivity|].
  destruct (proj1 (extractor_properties.nested_entities_ignore_parent_placement
                     spec.radians spec.cos_table spec.sin_table unit spec.self_doc
                     (spec.at_origin "A") (spec.moved "A") 0 2 None None ∅ eq_refl)
              self_doc_finite eq_refl eq_refl)
    as (geometry & children & cache' & H1 & H2 & _).
  exists geometry, children, cache'. split; [exact H1|exact H2].
Defined.

Lemma extraction_depth_bound_witness :
  (11 > 10)%Z
  /\ _extract_from_insert spec.self_doc (spec.at_origin "A") 11 10 None ∅
     = inr ([], ∅)
  /\ spec.finite_rotations spec.radians spec.self_doc
  /\ (exists es cache',
        block_extractor.extract_all_blocks spec.radians spec.cos_table spec.sin_table
          unit spec.self_doc 10 ∅ = inr (es, cache'))
  /\ math_domain_error (spec.radians 0) = false
  /\ exists es cache',
       block_extractor.extract_all_blocks spec.radians spec.cos_table spec.sin_table
         unit (spec.chain_doc 15) 10 ∅ = inr (es, cache')
       /\ map block_name es = map spec.chain_name (seq 0 11).
Proof.
  pose proof (extractor_properties.extraction_depth_bound
                spec.radians spec.cos_table spec.sin_table unit
                spec.self_doc 10 ∅) as (Hreturns & _ & Hdeeper & Hchain & _).
  split; [reflexivity|].
  split; [apply Hdeeper; reflexivity|].
  split; [exact self_doc_finite|].
  split.
  { destruct (Hreturns self_doc_finite) as (es & cache' & Eall & _).
    exists es, cache'. exact Eall. }
  split; [reflexivity|].
  exact (Hchain eq_refl).
Defined.

Lemma resolver_memoization_witness :
  spec.resolve_result spec.cos_table spec.sin_table spec.block_with_triangle ∅
  = Some spec.triangle
  /\ (∅ : GeometryCache) ⊆ ∅
  /\ _extract_block_geometry spec.block_without_polygon
       (spec.resolve_cache spec.cos_table spec.sin_table spec.block_with_triangle ∅)
     = inr (Some spec.triangle,
            spec.resolve_cache spec.cos_table spec.sin_table spec.block_with_triangle ∅).
Proof.
  assert (Hfirst : spec.resolve_result spec.cos_table spec.sin_table
                     spec.block_with_triangle ∅ = Some spec.triangle)
    by (vm_compute; reflexivity).
  split; [exact Hfirst|]. split; [reflexivity|].
  apply (proj2 (proj1 (proj2 (proj2
           (extractor_properties.resolver_memoization
              spec.cos_table spec.sin_table spec.block_with_triangle ∅)))
           spec.triangle Hfirst)).
  - reflexivity.
  - reflexivity.
Defined.

(** As stated, C7 fails on a block without a polygon: the first call
    returns none and stores nothing, and the second call scans, as the
    result for other primitives under the same name shows. *)
Lemma resolver_absent_counterexample :
  _extract_block_geometry spec.block_without_polygon ∅ = inr (None, ∅)
  /\ (∅ : GeometryCache) !! block_name_of spec.block_without_polygon = None
  /\ block_name_of spec.block_with_triangle = block_name_of spec.block_without_polygon
  /\ _extract_block_geometry spec.block_with_triangle ∅
     = inr (Some spec.triangle, {[ "B" := spec.triangle ]})
  /\ ~ (forall block block' cache,
          block_name_of block' = block_name_of block ->
          match _extract_block_geometry block cache with
          | inr (first, cache1) =>
              is_Some (cache1 !! block_name_of block)
              /\ exists cache2, _extract_block_geometry block' cache1 = inr (first, cache2)
          | inl _ => False
          end).
Proof.
  split; [reflexivity|]. split; [reflexivity|]. split; [reflexivity|].
  split; [vm_compute; reflexivity|].
  intros H.
  specialize (H spec.block_without_polygon spec.block_with_triangle ∅ eq_refl).
  destruct H as [[g Hg] _]. vm_compute in Hg. discriminate.
Qed.

Lemma extraction_total_witness :
  spec.finite_rotations spec.radians spec.hollow_doc
  /\ (exists es cache',
        block_extractor.extract_all_blocks spec.radians spec.cos_table spec.sin_table
          unit spec.hollow_doc 10 ∅ = inr (es, cache'))
  /\ blocks spec.hollow_doc !! name spec.missing_block = None
  /\ _extract_from_insert spec.hollow_doc spec.missing_block 0 10 None ∅ = inr ([], ∅)
  /\ _extract_block_geometry spec.hollow_block ∅ = inr (None, ∅)
  /\ _extract_from_insert spec.hollow_doc (spec.at_origin "H") 0 10 None ∅
     = spec.visit_nested
         (fun nested => _extract_from_insert spec.hollow_doc nested (0 + 1) 10 None)
         [OTHER "LINE"; INSERT (spec.moved "B")] ∅
  /\ math_domain_error (spec.radians (rotation spec.turned_without_end)) = true
  /\ _extract_from_insert spec.endless_doc spec.turned_without_end 0 10 None ∅
     = inl (ValueError "math domain error").
Proof.
  pose proof (extractor_properties.extraction_total
                spec.radians spec.cos_table spec.sin_table unit
                spec.hollow_doc 10 ∅) as (Hreturns & _ & Hmissing & Habsent & _).
  pose proof (extractor_properties.extraction_total
                spec.radians spec.cos_table spec.sin_table unit
                spec.endless_doc 10 ∅) as (_ & _ & _ & _ & _ & Hraises).
  assert (Hhollow : _extract_block_geometry spec.hollow_block ∅ = inr (None, ∅))
    by reflexivity.
  assert (Hturned : _extract_block_geometry spec.block_with_triangle ∅
                    = inr (Some [(0, 0); (4, 0); (0, 3)], {[ "B" := spec.triangle ]}))
    by (vm_compute; reflexivity).
  split; [exact hollow_doc_finite|].
  split; [exact (Hreturns hollow_doc_finite)|].
  split; [reflexivity|].
  split; [apply Hmissing; reflexivity|].
  split; [exact Hhollow|].
  split.
  { apply (proj1 (Habsent (spec.at_origin "H") 0%Z None ∅ spec.hollow_block ∅
                    ltac:(lia) eq_refl Hhollow)). }
  split; [reflexivity|].
  apply (Hraises spec.turned_without_end 0%Z None ∅ spec.block_with_triangle
           (0, 0) [(4, 0); (0, 3)] {[ "B" := spec.triangle ]});
    [lia|reflexivity|exact Hturned|reflexivity].
Defined.

(** The block without a polygon is passed through: the one entity is that
    of the triangle block placed inside it. *)
Example hollow_block_is_passed_through :
  block_extractor.extract_all_blocks spec.radians spec.cos_table spec.sin_table
    unit spec.hollow_doc 10 ∅
  = inr ([placed_entity spec.radians spec.cos_table spec.sin_table
            (spec.moved "B") spec.triangle],
         {[ "B" := spec.triangle ]}).
Proof. vm_compute. reflexivity. Qed.

(** As stated, C9 fails on an INSERT with an infinite rotation angle:
    placing the triangle with it raises the ValueError of [math.cos], and
    the exception leaves [extract_all_blocks]. *)
Lemma extraction_raises_counterexample :
  rotation spec.turned_without_end = infinity
  /\ In (INSERT spec.turned_without_end) (modelspace spec.endless_doc)
  /\ block_extractor.extract_all_blocks spec.radians spec.cos_table spec.sin_table
       unit spec.endless_doc 10 ∅
     = inl (ValueError "math domain error")
  /\ ~ (forall doc : Drawing,
          exists es cache',
            block_extractor.extract_all_blocks spec.radians spec.cos_table
              spec.sin_table unit doc 10 ∅ = inr (es, cache')).
Proof.
  assert (Hraises :
    block_extractor.extract_all_blocks spec.radians spec.cos_table spec.sin_table
      unit spec.endless_doc 10 ∅
    = inl (ValueError "math domain error")) by (vm_compute; reflexivity).
  split; [reflexivity|]. split; [now left|]. split; [exact Hraises|].
  intros Hall. destruct (Hall spec.endless_doc) as (es & cache' & Hreturns).
  rewrite Hraises in Hreturns. discriminate.
Qed.

End examples.
